(** * MyDHT11: a shallow embedding of the DHT11 driver and its properties

    The driver (Firmware/DEMO_FINAL_PFC/MyDHT11.cpp and MyDHT11/MyDHT11.h)
    talks to the sensor through the Arduino primitives [pinMode],
    [digitalWrite], [digitalRead], [delay], [delayMicroseconds], [micros]
    and [Serial].  The primitives are external; they are modelled by a
    [World] that answers every [digitalRead] and every [micros] call from
    two arbitrary streams and records everything the driver outputs. *)

From stdpp Require Import base numbers list strings gmap.
From Stdlib Require Import ZArith Lia.

(** ** The Arduino side *)

Module Arduino.

Inductive Level : Type := LOW | HIGH.

(** [digitalRead] returns an [int]: 0 for LOW, 1 for HIGH. *)
Definition level_value (l : Level) : Z :=
  match l with LOW => 0 | HIGH => 1 end.

Definition level_eqb (a b : Level) : bool :=
  match a, b with
  | LOW, LOW | HIGH, HIGH => true
  | _, _ => false
  end.

Inductive PinMode : Type := INPUT | OUTPUT | INPUT_PULLUP.

(** What the driver does to the outside, in program order. *)
Inductive Event : Type :=
| SetPinMode (pin : Z) (m : PinMode)
| DigitalWrite (pin : Z) (l : Level)
| Delay (ms : Z)
| DelayMicroseconds (us : Z)
| SerialPrint (s : string)
| SerialPrintln (s : string)
| SerialPrintlnInt (n : Z).

(** [signal p k] is the level pin [p] shows to the [k]-th [digitalRead]
    of the run and [clock k] the value of the [k]-th [micros()] call;
    [polls] and [ticks] count the calls made so far.  [modes] is the
    direction register of the pins, [trace] the outputs, latest first. *)
Record World : Type := mkWorld {
  signal : Z -> nat -> Level;
  clock  : nat -> Z;
  polls  : nat;
  ticks  : nat;
  modes  : gmap Z PinMode;
  trace  : list Event
}.

(** [unsigned long] is 32 bits wide on the Arduino targets. *)
Definition ULONG_BITS : Z := 32.
Definition wrap_ulong (x : Z) : Z := (x mod 2 ^ ULONG_BITS)%Z.

(** [uint8_t] store. *)
Definition wrap_u8 (x : Z) : Z := (x mod 256)%Z.

End Arduino.
Export Arduino.

(** ** Commands: state passing over the world, with early [return false] *)

(** Which [return false] of [read()] fired before the frame was complete. *)
Inductive Abort : Type :=
| AckLowTimeout
| AckHighTimeout
| BitLowTimeout (i : nat)
| BitHighTimeout (i : nat).

Inductive result (A : Type) : Type :=
| Done (a : A)
| ReturnFalse (why : Abort).
Arguments Done {A} a.
Arguments ReturnFalse {A} why.

Definition Cmd (A : Type) : Type := World -> result A * World.

Definition ret {A} (a : A) : Cmd A := fun w => (Done a, w).

Definition bind {A B} (c : Cmd A) (k : A -> Cmd B) : Cmd B :=
  fun w =>
    match c w with
    | (Done a, w') => k a w'
    | (ReturnFalse why, w') => (ReturnFalse why, w')
    end.

Definition abort {A} (why : Abort) : Cmd A := fun w => (ReturnFalse why, w).

Declare Scope cmd_scope.
Delimit Scope cmd_scope with cmd.
Notation "x <- c ;; k" := (bind c (fun x => k))
  (at level 20, c at level 99, k at level 200) : cmd_scope.
Notation "c ;; k" := (bind c (fun _ => k))
  (at level 100, k at level 200, right associativity) : cmd_scope.
Local Open Scope cmd_scope.

(** *** The primitives *)

Definition emit (e : Event) (w : World) : World :=
  mkWorld (signal w) (clock w) (polls w) (ticks w) (modes w) (e :: trace w).

Definition pinMode (pin : Z) (m : PinMode) : Cmd unit :=
  fun w =>
    (Done tt,
     mkWorld (signal w) (clock w) (polls w) (ticks w)
             (<[pin := m]> (modes w)) (SetPinMode pin m :: trace w)).

Definition digitalWrite (pin : Z) (l : Level) : Cmd unit :=
  fun w => (Done tt, emit (DigitalWrite pin l) w).

Definition delay (ms : Z) : Cmd unit :=
  fun w => (Done tt, emit (Delay ms) w).

Definition delayMicroseconds (us : Z) : Cmd unit :=
  fun w => (Done tt, emit (DelayMicroseconds us) w).

Definition digitalRead (pin : Z) : Cmd Level :=
  fun w =>
    (Done (signal w pin (polls w)),
     mkWorld (signal w) (clock w) (S (polls w)) (ticks w) (modes w) (trace w)).

Definition micros : Cmd Z :=
  fun w =>
    (Done (wrap_ulong (clock w (ticks w))),
     mkWorld (signal w) (clock w) (polls w) (S (ticks w)) (modes w) (trace w)).

(** ** The driver *)

(** The private fields of the class.  [_pin] is a [uint8_t]; the two
    readings are [int]s that only ever receive 0 or a [uint8_t]. *)
Record MyDHT11 : Type := mkMyDHT11 {
  _pin : Z;
  _temperature : Z;
  _humidity : Z
}.

(** [MyDHT11::MyDHT11(uint8_t pin)]. *)
Definition new_MyDHT11 (pin : Z) (w : World) : MyDHT11 * World :=
  let d := mkMyDHT11 pin 0 0 in
  (d, snd (pinMode (_pin d) INPUT w)).

Definition getTemperature (d : MyDHT11) : Z := _temperature d.
Definition getHumidity (d : MyDHT11) : Z := _humidity d.

(** The budgets of the polling loops of [read()]. *)
Definition ACK_LOW_BUDGET : nat := Z.to_nat 10000.
Definition ACK_HIGH_BUDGET : nat := Z.to_nat 30000.
Definition BIT_BUDGET : nat := Z.to_nat 10000.

(** [while (digitalRead(_pin) == lvl) { if (loopCnt-- == 0) return false; }]
    The result is the value of [loopCnt] when the loop is left.  [loopCnt]
    is an [unsigned int]; the decrement wraps only when [loopCnt] is 0,
    and there the function returns, so the wrapped value is never used. *)
Fixpoint wait_while (why : Abort) (pin : Z) (lvl : Level) (loopCnt : nat)
  : Cmd nat :=
  l <- digitalRead pin ;;
  if level_eqb l lvl then
    match loopCnt with
    | O => abort why
    | S n => wait_while why pin lvl n
    end
  else ret loopCnt.

(** Lines 36-41: the start signal. *)
Definition start_signal (pin : Z) : Cmd unit :=
  pinMode pin OUTPUT ;;
  digitalWrite pin LOW ;;
  delay 18 ;;
  digitalWrite pin HIGH ;;
  delayMicroseconds 40 ;;
  pinMode pin INPUT_PULLUP.

(** The locals [bits], [cnt] and [idx] of [read()]. *)
Record Frame : Type := mkFrame {
  bits : list Z;
  cnt : Z;
  idx : nat
}.

Definition empty_frame : Frame := mkFrame [0; 0; 0; 0; 0]%Z 7 0.

(** [(micros() - t) > 50], on [unsigned long]. *)
Definition is_one (t now : Z) : bool := (wrap_ulong (now - t) >? 50)%Z.

(** Lines 55-65 of the loop body: the two waits of one bit, which share
    [loopCnt], and the comparison of the high time. *)
Definition sample_bit (i : nat) (pin : Z) : Cmd bool :=
  loopCnt <- wait_while (BitLowTimeout i) pin LOW BIT_BUDGET ;;
  t <- micros ;;
  _ <- wait_while (BitHighTimeout i) pin HIGH loopCnt ;;
  now <- micros ;;
  ret (is_one t now).

(** Lines 65-74: [if (...) bits[idx] |= (1 << cnt);] and the update of
    [cnt] and [idx].  [bits[idx]] is a [uint8_t], hence the wrap.  An
    index outside the array is undefined behaviour in the source; here the
    lookup gives a default and the store does nothing ([packed_idx] shows
    that no store of a run is outside). *)
Definition push_bit (b : bool) (f : Frame) : Frame :=
  let bits' :=
    if b then
      <[idx f := wrap_u8 (Z.lor (bits f !!! idx f) (Z.shiftl 1 (cnt f)))]>
        (bits f)
    else bits f in
  if (cnt f =? 0)%Z then mkFrame bits' 7 (S (idx f))
  else mkFrame bits' (cnt f - 1) (idx f).

(** [for (int i = 0; i < 40; i++)], with [n] the iterations left. *)
Fixpoint read_bits (pin : Z) (n i : nat) (f : Frame) : Cmd Frame :=
  match n with
  | O => ret f
  | S n' => b <- sample_bit i pin ;; read_bits pin n' (S i) (push_bit b f)
  end.

(** Lines 31-75 of [read()]: everything up to the complete buffer. *)
Definition read_frame (pin : Z) : Cmd (list Z) :=
  start_signal pin ;;
  _ <- wait_while AckLowTimeout pin LOW ACK_LOW_BUDGET ;;
  _ <- wait_while AckHighTimeout pin HIGH ACK_HIGH_BUDGET ;;
  f <- read_bits pin 40 0 empty_frame ;;
  ret (bits f).

Definition checksum (bits : list Z) : Z :=
  Z.land (bits !!! 0%nat + bits !!! 2%nat) 255.

(** Lines 84-88: the diagnostic output. *)
Definition report_checksum (bits : list Z) (w : World) : World :=
  emit (SerialPrintlnInt (bits !!! 4%nat))
    (emit (SerialPrint "Received checksum: ")
      (emit (SerialPrintlnInt (checksum bits))
        (emit (SerialPrint "Calculated checksum: ")
          (emit (SerialPrintln "Checksum validation failed.") w)))).

(** [bool MyDHT11::read()]. *)
Definition read (d : MyDHT11) (w : World) : bool * MyDHT11 * World :=
  match read_frame (_pin d) w with
  | (ReturnFalse _, w') => (false, d, w')
  | (Done bits, w') =>
      let d1 := mkMyDHT11 (_pin d) (_temperature d) (bits !!! 0%nat) in
      let d2 := mkMyDHT11 (_pin d1) (bits !!! 2%nat) (_humidity d1) in
      if (bits !!! 4%nat =? checksum bits)%Z then (true, d2, w')
      else (false, d2, report_checksum bits w')
  end.

(** [bool MyDHT11::waitForState(uint8_t state, unsigned long timeout)].
    The loop of the source has no bound of its own, so the model takes
    fuel: [None] says that the fuel ran out, nothing else does. *)
Fixpoint waitForState_loop (fuel : nat) (pin state timeout startTime : Z)
  : Cmd (option bool) :=
  match fuel with
  | O => ret None
  | S fuel' =>
      l <- digitalRead pin ;;
      if negb (level_value l =? state)%Z then
        now <- micros ;;
        if (wrap_ulong (now - startTime) >? timeout)%Z then ret (Some false)
        else waitForState_loop fuel' pin state timeout startTime
      else ret (Some true)
  end.

Definition waitForState (fuel : nat) (d : MyDHT11) (state timeout : Z)
  (w : World) : option bool * MyDHT11 * World :=
  match (startTime <- micros ;;
         waitForState_loop fuel (_pin d) state timeout startTime) w with
  | (Done r, w') => (r, d, w')
  | (ReturnFalse _, w') => (None, d, w')
  end.

(** ** Worlds after some polls and some clock readings *)

Definition polled (k : nat) (w : World) : World :=
  mkWorld (signal w) (clock w) (k + polls w) (ticks w) (modes w) (trace w).

Definition ticked (k : nat) (w : World) : World :=
  mkWorld (signal w) (clock w) (polls w) (k + ticks w) (modes w) (trace w).

(** [run w pin lvl p n]: the [n] polls of pin [pin] from the [p]-th on
    all show [lvl]. *)
Definition run (w : World) (pin : Z) (lvl : Level) (p n : nat) : Prop :=
  forall k, k < n -> signal w pin (p + k) = lvl.

(** The world right after the start signal. *)
Definition started (pin : Z) (w : World) : World :=
  snd (start_signal pin w).

(** [high_time w i]: what [micros() - t] evaluates to for bit [i] of a
    read that starts in [w]; the clock is read twice per bit. *)
Definition high_time (w : World) (i : nat) : Z :=
  wrap_ulong (wrap_ulong (clock w (ticks w + 2 * i + 1))
              - wrap_ulong (clock w (ticks w + 2 * i))).

(** The 40 bits a read that starts in [w] samples, if it gets that far. *)
Definition samples (w : World) : list bool :=
  map (fun i => (high_time w i >? 50)%Z) (seq 0 40).

(** The packing loop alone. *)
Definition pack (l : list bool) (f : Frame) : Frame :=
  fold_left (fun f b => push_bit b f) l f.

(** The bit that two clock readings [t] and [t + 1] give. *)
Definition bit_at (w : World) (t : nat) : bool :=
  is_one (wrap_ulong (clock w t)) (wrap_ulong (clock w (S t))).

(** The bits that [n] iterations sample when the clock has been read [t]
    times before. *)
Fixpoint samples_from (w : World) (t n : nat) : list bool :=
  match n with
  | O => []
  | S n' => bit_at w t :: samples_from w (S (S t)) n'
  end.

(** What holds of the locals after the bits [l] have gone through the loop
    body: bit [n] of byte [j] is the bit at place [8 * j + (7 - n)] of the
    stream, or 0 if the stream has not got that far. *)
Record packed (l : list bool) (f : Frame) : Prop := mkPacked {
  packed_pos : Z.of_nat (length l) = (8 * Z.of_nat (idx f) + (7 - cnt f))%Z;
  packed_cnt : (0 <= cnt f <= 7)%Z;
  packed_len : length (bits f) = 5;
  packed_u8 : forall j, j < 5 -> (0 <= bits f !!! j < 256)%Z;
  packed_bit : forall j n, j < 5 -> n < 8 ->
    Z.testbit (bits f !!! j) (Z.of_nat n) = nth (8 * j + (7 - n)) l false
}.

(** The calls a client can make on a driver, and what they answer. *)
Inductive Call : Type := CallRead | CallGetTemperature | CallGetHumidity.

Inductive Reply : Type := ReplyBool (b : bool) | ReplyInt (n : Z).

Definition call (c : Call) (d : MyDHT11) (w : World)
  : Reply * MyDHT11 * World :=
  match c with
  | CallRead => let '(b, d', w') := read d w in (ReplyBool b, d', w')
  | CallGetTemperature => (ReplyInt (getTemperature d), d, w)
  | CallGetHumidity => (ReplyInt (getHumidity d), d, w)
  end.

Fixpoint calls (cs : list Call) (d : MyDHT11) (w : World)
  : list Reply * MyDHT11 * World :=
  match cs with
  | [] => ([], d, w)
  | c :: cs' =>
      let '(r, d1, w1) := call c d w in
      let '(rs, d2, w2) := calls cs' d1 w1 in
      (r :: rs, d2, w2)
  end.

Definition is_u8 (x : Z) : Prop := (0 <= x <= 255)%Z.

Definition u8_readings (d : MyDHT11) : Prop :=
  is_u8 (_temperature d) /\ is_u8 (_humidity d).

Definition u8_reply (r : Reply) : Prop :=
  match r with
  | ReplyBool _ => True
  | ReplyInt n => is_u8 n
  end.

(** [elapsed w k]: what [micros() - startTime] evaluates to at the check
    after the [k]-th poll (from 0) of a [waitForState] that starts in [w]. *)
Definition elapsed (w : World) (k : nat) : Z :=
  wrap_ulong (wrap_ulong (clock w (S (ticks w + k)))
              - wrap_ulong (clock w (ticks w))).

(** ** Test signals *)

(** The bits of a byte, highest first. *)
Definition byte_bits (b : Z) : list bool :=
  map (fun n => Z.testbit b (Z.of_nat n)) [7; 6; 5; 4; 3; 2; 1; 0].

(** The bit stream of a frame: byte after byte, highest bit first. *)
Definition frame_bits (bytes : list Z) : list bool :=
  concat (map byte_bits bytes).

(** A sensor sends the bytes [bytes] to a read that starts in [w] when the
    40 high times of the read spell their bit stream. *)
Definition sends (w : World) (bytes : list Z) : Prop :=
  samples w = frame_bits bytes.

(** A sensor that answers with the given bytes: a LOW poll, two HIGH
    polls and a LOW one for the acknowledgment, then the same four polls
    for every bit, whose high time is [one] microseconds for a 1 and
    [zero] for a 0; the clock starts at [t0]. *)
Definition frame_levels (bytes : list Z) : list Level :=
  [LOW; HIGH; HIGH; LOW]
    ++ concat (map (fun _ : bool => [LOW; HIGH; HIGH; LOW])
                   (frame_bits bytes)).

Fixpoint frame_times (zero one t0 : Z) (l : list bool) : list Z :=
  match l with
  | [] => []
  | b :: l' =>
      let t1 := (t0 + (if b then one else zero))%Z in
      t0 :: t1 :: frame_times zero one (t1 + 50)%Z l'
  end.

Definition sensor_world (zero one t0 : Z) (bytes : list Z) : World :=
  mkWorld (fun _ k => nth k (frame_levels bytes) HIGH)
          (fun k => nth k (frame_times zero one t0 (frame_bits bytes)) 0%Z)
          0 0 ∅ [].

(** A line that stays at one level for ever. *)
Definition stuck_world (l : Level) : World :=
  mkWorld (fun _ _ => l) (fun _ => 0%Z) 0 0 ∅ [].

(** A line that shows the given levels and then stays LOW, with a clock
    that advances by 10 microseconds from one reading to the next. *)
Definition slow_world (levels : list Level) : World :=
  mkWorld (fun _ k => nth k levels LOW) (fun k => (10 * Z.of_nat k)%Z)
          0 0 ∅ [].

(** ** What a read leaves behind *)

(** The outputs of the start signal on [pin], latest first. *)
Definition start_events (pin : Z) : list Event :=
  [SetPinMode pin INPUT_PULLUP; DelayMicroseconds 40; DigitalWrite pin HIGH;
   Delay 18; DigitalWrite pin LOW; SetPinMode pin OUTPUT].

(** The diagnostic lines for the buffer [bs], latest first. *)
Definition checksum_events (bs : list Z) : list Event :=
  [SerialPrintlnInt (bs !!! 4%nat); SerialPrint "Received checksum: ";
   SerialPrintlnInt (checksum bs); SerialPrint "Calculated checksum: ";
   SerialPrintln "Checksum validation failed."].

(** What [read] prints after the start signal. *)
Definition diagnostics (r : result (list Z)) : list Event :=
  match r with
  | Done bs => if (bs !!! 4%nat =? checksum bs)%Z then [] else checksum_events bs
  | ReturnFalse _ => []
  end.

(** Two worlds in which the line of [pin] shows the same levels to the
    same polls; their clocks, their other pins, their pin modes and their
    outputs may differ. *)
Definition same_line (pin : Z) (w w' : World) : Prop :=
  polls w = polls w' /\ ticks w = ticks w' /\
  forall k, signal w pin k = signal w' pin k.

(** The world whose clock is ahead by [c] microseconds. *)
Definition shift_clock (c : Z) (w : World) : World :=
  mkWorld (signal w) (fun k => (clock w k + c)%Z) (polls w) (ticks w)
          (modes w) (trace w).

(** Something ends a [waitForState] loop at its [j]-th poll (from 0), if
    it gets there: the poll shows [state], or the check after it finds the
    timeout exceeded.  [startTime] is what the loop measures from and the
    loop starts in [w]. *)
Definition loop_exit (pin state timeout startTime : Z) (w : World) (j : nat)
  : Prop :=
  level_value (signal w pin (polls w + j)) = state \/
  (wrap_ulong (wrap_ulong (clock w (ticks w + j)) - startTime) > timeout)%Z.

(** A pulse on the line of [pin] from poll [p] on: [a] polls LOW, then
    [c + 1] polls HIGH, then a poll LOW. *)
Definition pulse_at (w : World) (pin : Z) (p a c : nat) : Prop :=
  run w pin LOW p a /\ run w pin HIGH (p + a) (S c) /\
  signal w pin (p + a + S c) = LOW.

(** Pulses one after the other: each begins at the poll after the HIGH
    polls of the one before, which is the poll that saw it end. *)
Fixpoint follows (w : World) (pin : Z) (p : nat) (l : list (nat * nat))
  : Prop :=
  match l with
  | [] => True
  | (a, c) :: l' => pulse_at w pin p a c /\ follows w pin (p + a + c + 2) l'
  end.

(** A pulse short enough for the one budget of a bit. *)
Definition fits_bit (ac : nat * nat) : Prop := fst ac + snd ac <= BIT_BUDGET.

(** * Lemmas *)

(** ** The monad and the world *)

Lemma bind_done {A B} (c : Cmd A) (k : A -> Cmd B) w a w' :
  c w = (Done a, w') -> bind c k w = k a w'.
Proof. intros H. unfold bind. now rewrite H. Qed.

Lemma bind_abort {A B} (c : Cmd A) (k : A -> Cmd B) w why w' :
  c w = (ReturnFalse why, w') -> bind c k w = (ReturnFalse why, w').
Proof. intros H. unfold bind. now rewrite H. Qed.

Lemma level_eqb_true a b : level_eqb a b = true <-> a = b.
Proof. destruct a, b; simpl; split; congruence. Qed.

Lemma level_eqb_false a b : level_eqb a b = false <-> a <> b.
Proof. destruct a, b; simpl; split; congruence. Qed.

Lemma not_LOW l : l <> LOW <-> l = HIGH.
Proof. destruct l; split; congruence. Qed.

Lemma not_HIGH l : l <> HIGH <-> l = LOW.
Proof. destruct l; split; congruence. Qed.

Lemma world_eq s c p p' t t' m tr :
  p = p' -> t = t' -> mkWorld s c p t m tr = mkWorld s c p' t' m tr.
Proof. now intros -> ->. Qed.

Lemma polled_0 w : polled 0 w = w.
Proof. now destruct w. Qed.

Lemma polled_polled j k w : polled j (polled k w) = polled (j + k) w.
Proof. unfold polled; simpl. apply world_eq; lia. Qed.

Lemma ticked_ticked j k w : ticked j (ticked k w) = ticked (j + k) w.
Proof. unfold ticked; simpl. apply world_eq; lia. Qed.

Lemma polled_ticked j k w : polled j (ticked k w) = ticked k (polled j w).
Proof. reflexivity. Qed.

Lemma micros_eq w :
  micros w = (Done (wrap_ulong (clock w (ticks w))), ticked 1 w).
Proof. reflexivity. Qed.

Lemma run_shift w pin lvl p n :
  signal w pin p = lvl -> run w pin lvl (S p) n -> run w pin lvl p (S n).
Proof.
  intros H0 Hr [|k] Hk.
  - now rewrite Nat.add_0_r.
  - replace (p + S k) with (S p + k) by lia. apply Hr. lia.
Qed.

Lemma run_weaken w pin lvl p n m :
  m <= n -> run w pin lvl p n -> run w pin lvl p m.
Proof. intros Hm Hr k Hk. apply Hr. lia. Qed.

(** ** The polling loop *)

Section Wait.
Variables (why : Abort) (pin : Z) (lvl : Level).

Lemma wait_while_step n w :
  wait_while why pin lvl n w =
    if level_eqb (signal w pin (polls w)) lvl then
      match n with
      | O => (ReturnFalse why, polled 1 w)
      | S n' => wait_while why pin lvl n' (polled 1 w)
      end
    else (Done n, polled 1 w).
Proof.
  destruct n; simpl; unfold bind, digitalRead;
    destruct (level_eqb (signal w pin (polls w)) lvl); reflexivity.
Qed.

(** The loop either is left at the first poll that does not show [lvl],
    with [loopCnt] lowered by the polls before it, or sees [lvl] at
    [loopCnt + 1] polls in a row and returns false. *)
Lemma wait_while_cases n w :
  (exists j, j <= n /\ run w pin lvl (polls w) j /\
             signal w pin (polls w + j) <> lvl /\
             wait_while why pin lvl n w = (Done (n - j), polled (S j) w))
  \/ (run w pin lvl (polls w) (S n) /\
      wait_while why pin lvl n w = (ReturnFalse why, polled (S n) w)).
Proof.
  revert w. induction n as [|n IH]; intros w; rewrite wait_while_step;
    destruct (level_eqb (signal w pin (polls w)) lvl) eqn:E.
  - right. split; [|reflexivity].
    apply level_eqb_true in E. intros k Hk.
    replace k with 0 by lia. now rewrite Nat.add_0_r.
  - left. exists 0. apply level_eqb_false in E.
    rewrite Nat.add_0_r, Nat.sub_0_r.
    split; [lia | split; [intros k Hk; lia | split; [exact E | reflexivity]]].
  - apply level_eqb_true in E.
    destruct (IH (polled 1 w)) as [(j & Hj & Hr & Hs & Hw) | (Hr & Hw)].
    + left. exists (S j). simpl in Hr, Hs.
      repeat split.
      * lia.
      * now apply run_shift.
      * now replace (polls w + S j) with (S (polls w + j)) by lia.
      * rewrite Hw, polled_polled. simpl. do 2 f_equal. lia.
    + right. split.
      * now apply run_shift.
      * rewrite Hw, polled_polled. do 2 f_equal. lia.
  - left. exists 0. apply level_eqb_false in E.
    rewrite Nat.add_0_r, Nat.sub_0_r.
    split; [lia | split; [intros k Hk; lia | split; [exact E | reflexivity]]].
Qed.

Lemma wait_while_done n w j :
  j <= n -> run w pin lvl (polls w) j ->
  signal w pin (polls w + j) <> lvl ->
  wait_while why pin lvl n w = (Done (n - j), polled (S j) w).
Proof.
  intros Hj Hr Hs.
  destruct (wait_while_cases n w) as [(j' & Hj' & Hr' & Hs' & Hw) | (Hr' & _)].
  - assert (j' = j) as ->; [|exact Hw].
    destruct (Nat.lt_trichotomy j' j) as [Hlt | [Heq | Hgt]]; auto.
    + exfalso. apply Hs'. apply Hr. exact Hlt.
    + exfalso. apply Hs. apply Hr'. exact Hgt.
  - exfalso. apply Hs. apply Hr'. lia.
Qed.

Lemma wait_while_abort n w :
  run w pin lvl (polls w) (S n) ->
  wait_while why pin lvl n w = (ReturnFalse why, polled (S n) w).
Proof.
  intros Hr.
  destruct (wait_while_cases n w) as [(j & Hj & _ & Hs & _) | (_ & Hw)]; auto.
  exfalso. apply Hs. apply Hr. lia.
Qed.

(** The loop polls at most [loopCnt + 1] times and touches nothing but
    the poll counter. *)
Lemma wait_while_polls n w :
  exists k, k <= S n /\ snd (wait_while why pin lvl n w) = polled k w.
Proof.
  destruct (wait_while_cases n w) as [(j & Hj & _ & _ & Hw) | (_ & Hw)];
    rewrite Hw; simpl.
  - exists (S j). split; [lia | reflexivity].
  - exists (S n). split; [lia | reflexivity].
Qed.

End Wait.

(** The proofs never need the budgets unfolded; evaluation still has them. *)
Opaque ACK_LOW_BUDGET ACK_HIGH_BUDGET BIT_BUDGET.

Lemma budgets :
  Z.of_nat ACK_LOW_BUDGET = 10000%Z /\ Z.of_nat ACK_HIGH_BUDGET = 30000%Z /\
  Z.of_nat BIT_BUDGET = 10000%Z.
Proof. repeat split; vm_compute; reflexivity. Qed.

(** ** One bit *)

(** The three ways through [sample_bit]: [a] LOW polls, then [c + 1] HIGH
    polls and a LOW one, with [a + c] within the one budget of the bit;
    or the budget is used up while the line is LOW; or it is used up while
    the line is HIGH, the LOW polls before counting against it. *)
Lemma sample_bit_cases i pin w :
  (exists a c, a + c <= BIT_BUDGET /\
     run w pin LOW (polls w) a /\
     run w pin HIGH (polls w + a) (S c) /\
     signal w pin (polls w + a + S c) = LOW /\
     sample_bit i pin w
       = (Done (bit_at w (ticks w)), ticked 2 (polled (a + c + 2) w)))
  \/ (run w pin LOW (polls w) (S BIT_BUDGET) /\
      sample_bit i pin w
        = (ReturnFalse (BitLowTimeout i), polled (S BIT_BUDGET) w))
  \/ (exists a, a <= BIT_BUDGET /\
        run w pin LOW (polls w) a /\
        run w pin HIGH (polls w + a) (BIT_BUDGET - a + 2) /\
        sample_bit i pin w
          = (ReturnFalse (BitHighTimeout i),
             ticked 1 (polled (BIT_BUDGET + 2) w))).
Proof.
  unfold sample_bit.
  destruct (wait_while_cases (BitLowTimeout i) pin LOW BIT_BUDGET w)
    as [(a & Ha & Hlow & Hup & Hw1) | (Hlow & Hw1)].
  2:{ right; left. split; [exact Hlow|]. now rewrite (bind_abort _ _ _ _ _ Hw1). }
  apply not_LOW in Hup.
  rewrite (bind_done _ _ _ _ _ Hw1), (bind_done _ _ _ _ _ (micros_eq _)).
  set (w1 := ticked 1 (polled (S a) w)).
  destruct (wait_while_cases (BitHighTimeout i) pin HIGH (BIT_BUDGET - a) w1)
    as [(c & Hc & Hhigh & Hdown & Hw2) | (Hhigh & Hw2)].
  - left. exists a, c. apply not_HIGH in Hdown. simpl in Hhigh, Hdown.
    split; [lia|]. split; [exact Hlow|]. split; [|split].
    + apply run_shift; [exact Hup|].
      intros k Hk. replace (S (polls w + a) + k) with (S (a + polls w) + k) by lia.
      now apply Hhigh.
    + now replace (polls w + a + S c) with (S (a + polls w + c)) by lia.
    + rewrite (bind_done _ _ _ _ _ Hw2), (bind_done _ _ _ _ _ (micros_eq _)).
      unfold ret, bit_at, w1. simpl. f_equal.
      unfold ticked, polled; simpl. apply world_eq; lia.
  - right; right. exists a. simpl in Hhigh.
    split; [lia|]. split; [exact Hlow|]. split.
    + replace (BIT_BUDGET - a + 2) with (S (S (BIT_BUDGET - a))) by lia.
      apply run_shift; [exact Hup|].
      intros k Hk. replace (S (polls w + a) + k) with (S (a + polls w) + k) by lia.
      now apply Hhigh.
    + rewrite (bind_abort _ _ _ _ _ Hw2). f_equal.
      unfold w1, ticked, polled; simpl. apply world_eq; lia.
Qed.

(** A bit is sampled exactly when its LOW polls and its HIGH polls fit
    into one budget together. *)
Lemma sample_bit_done_iff i pin w :
  (exists b, fst (sample_bit i pin w) = Done b) <->
  (exists a c, a + c <= BIT_BUDGET /\
     run w pin LOW (polls w) a /\
     run w pin HIGH (polls w + a) (S c) /\
     signal w pin (polls w + a + S c) = LOW).
Proof.
  split.
  - intros [b Hb].
    destruct (sample_bit_cases i pin w)
      as [(a & c & H1 & H2 & H3 & H4 & _) | [(_ & E) | (a & _ & _ & _ & E)]].
    + now exists a, c.
    + rewrite E in Hb. discriminate.
    + rewrite E in Hb. discriminate.
  - intros (a & c & Hac & Hlow & Hhigh & Hdown).
    destruct (sample_bit_cases i pin w)
      as [(a0 & c0 & _ & _ & _ & _ & E) | [(Hl & E) | (a' & Ha' & Hl & Hh & E)]].
    + rewrite E. now eexists.
    + clear E. exfalso. assert (signal w pin (polls w + a) = LOW) as E by (apply Hl; lia).
      specialize (Hhigh 0 ltac:(lia)). rewrite Nat.add_0_r in Hhigh. congruence.
    + clear E. exfalso.
      assert (a' = a) as ->.
      { destruct (Nat.lt_trichotomy a' a) as [Hlt | [Heq | Hgt]]; auto.
        - specialize (Hlow a' Hlt). specialize (Hh 0 ltac:(lia)).
          rewrite Nat.add_0_r in Hh. congruence.
        - specialize (Hl a Hgt). specialize (Hhigh 0 ltac:(lia)).
          rewrite Nat.add_0_r in Hhigh. congruence. }
      specialize (Hh (S c) ltac:(lia)). congruence.
Qed.

(** [sample_bit] polls at most [BIT_BUDGET + 2] times and reads the clock
    at most twice. *)
Lemma sample_bit_world i pin w :
  exists k t, k <= BIT_BUDGET + 2 /\ t <= 2 /\
    snd (sample_bit i pin w) = ticked t (polled k w).
Proof.
  destruct (sample_bit_cases i pin w)
    as [(a & c & H1 & _ & _ & _ & E) | [(_ & E) | (a & _ & _ & _ & E)]];
    rewrite E; simpl.
  - exists (a + c + 2), 2. repeat split; lia.
  - exists (S BIT_BUDGET), 0. repeat split; lia.
  - exists (BIT_BUDGET + 2), 1. repeat split; lia.
Qed.

(** ** The loop over the bits *)

Lemma samples_from_clock w w' t n :
  clock w' = clock w -> samples_from w' t n = samples_from w t n.
Proof.
  intros Hc. revert t. induction n as [|n IH]; intros t; simpl; [reflexivity|].
  rewrite IH. unfold bit_at. now rewrite Hc.
Qed.

Lemma samples_from_map w t n :
  samples_from w t n = map (fun i => bit_at w (t + 2 * i)) (seq 0 n).
Proof.
  revert t. induction n as [|n IH]; intros t; [reflexivity|].
  cbn [samples_from seq map]. rewrite <- seq_shift, map_map, IH.
  f_equal.
  - f_equal. lia.
  - apply map_ext. intros i. f_equal. lia.
Qed.

Lemma samples_eq w : samples w = samples_from w (ticks w) 40.
Proof.
  rewrite samples_from_map. unfold samples. apply map_ext. intros i.
  unfold high_time, bit_at, is_one.
  now replace (ticks w + 2 * i + 1) with (S (ticks w + 2 * i)) by lia.
Qed.

Lemma length_samples w : length (samples w) = 40.
Proof. unfold samples. now rewrite length_map, length_seq. Qed.

Lemma nth_samples w i :
  i < 40 -> nth i (samples w) false = (high_time w i >? 50)%Z.
Proof.
  intros Hi. unfold samples.
  rewrite (nth_indep _ false ((high_time w 0 >? 50)%Z))
    by now rewrite length_map, length_seq.
  rewrite (map_nth (fun i => (high_time w i >? 50)%Z) (seq 0 40) 0 i).
  now rewrite seq_nth.
Qed.

Lemma read_bits_done pin n i f w f' :
  fst (read_bits pin n i f w) = Done f' ->
  f' = pack (samples_from w (ticks w) n) f.
Proof.
  revert i f w. induction n as [|n IH]; intros i f w; simpl.
  - now intros [= <-].
  - destruct (sample_bit_cases i pin w)
      as [(a & c & _ & _ & _ & _ & E) | [(_ & E) | (a & _ & _ & _ & E)]].
    + rewrite (bind_done _ _ _ _ _ E). intros H. apply IH in H.
      rewrite H. simpl. f_equal. now apply samples_from_clock.
    + rewrite (bind_abort _ _ _ _ _ E). discriminate.
    + rewrite (bind_abort _ _ _ _ _ E). discriminate.
Qed.

(** Only a bit of the loop can make the loop return false. *)
Lemma read_bits_abort pin n i f w why :
  fst (read_bits pin n i f w) = ReturnFalse why ->
  exists j, i <= j < i + n /\ (why = BitLowTimeout j \/ why = BitHighTimeout j).
Proof.
  revert i f w. induction n as [|n IH]; intros i f w; simpl; [discriminate|].
  destruct (sample_bit_cases i pin w)
    as [(a & c & _ & _ & _ & _ & E) | [(_ & E) | (a & _ & _ & _ & E)]].
  - rewrite (bind_done _ _ _ _ _ E). intros H.
    apply IH in H as (j & Hj & H). exists j. split; [lia | exact H].
  - rewrite (bind_abort _ _ _ _ _ E). intros [= <-].
    exists i. split; [lia | now left].
  - rewrite (bind_abort _ _ _ _ _ E). intros [= <-].
    exists i. split; [lia | now right].
Qed.

Lemma read_bits_world pin n i f w :
  exists k t, k <= n * (BIT_BUDGET + 2) /\ t <= 2 * n /\
    snd (read_bits pin n i f w) = ticked t (polled k w).
Proof.
  revert i f w. induction n as [|n IH]; intros i f w; simpl.
  - exists 0, 0. repeat split; try lia. now destruct w.
  - destruct (sample_bit_world i pin w) as (k1 & t1 & Hk1 & Ht1 & E).
    unfold bind. destruct (sample_bit i pin w) as [[b|why] w1]; simpl in E; subst w1.
    + destruct (IH (S i) (push_bit b f) (ticked t1 (polled k1 w)))
        as (k & t & Hk & Ht & ->).
      exists (k + k1), (t + t1). split; [lia|]. split; [lia|].
      now rewrite polled_ticked, ticked_ticked, polled_polled.
    + exists k1, t1. split; [lia|]. split; [lia|]. reflexivity.
Qed.

(** ** The frame *)

Lemma start_signal_eq pin w : start_signal pin w = (Done tt, started pin w).
Proof. reflexivity. Qed.

(** The start signal leaves the driver's inputs as they were. *)
Lemma started_inputs pin w :
  signal (started pin w) = signal w /\ clock (started pin w) = clock w /\
  polls (started pin w) = polls w /\ ticks (started pin w) = ticks w.
Proof. repeat split. Qed.

(** A complete frame is the packing of the 40 sampled bits. *)
Lemma read_frame_done pin w bs :
  fst (read_frame pin w) = Done bs ->
  bs = bits (pack (samples w) empty_frame).
Proof.
  unfold read_frame. rewrite (bind_done _ _ _ _ _ (start_signal_eq pin w)).
  destruct (wait_while_cases AckLowTimeout pin LOW ACK_LOW_BUDGET (started pin w))
    as [(j & _ & _ & _ & E) | (_ & E)].
  2:{ rewrite (bind_abort _ _ _ _ _ E). discriminate. }
  rewrite (bind_done _ _ _ _ _ E).
  destruct (wait_while_cases AckHighTimeout pin HIGH ACK_HIGH_BUDGET
              (polled (S j) (started pin w)))
    as [(j' & _ & _ & _ & E') | (_ & E')].
  2:{ rewrite (bind_abort _ _ _ _ _ E'). discriminate. }
  rewrite (bind_done _ _ _ _ _ E').
  unfold bind at 1.
  destruct (read_bits _ _ _ _ _) as [[f|why] w'] eqn:Eb; [|discriminate].
  intros [= <-].
  rewrite (read_bits_done pin 40 0 empty_frame _ f) by now rewrite Eb.
  rewrite samples_eq.
  now rewrite (samples_from_clock w (polled (S j') (polled (S j) (started pin w)))).
Qed.

(** A read that stops early stopped in one of the polling loops. *)
Lemma read_frame_abort pin w why :
  fst (read_frame pin w) = ReturnFalse why ->
  why = AckLowTimeout \/ why = AckHighTimeout \/
  exists j, j < 40 /\ (why = BitLowTimeout j \/ why = BitHighTimeout j).
Proof.
  unfold read_frame. rewrite (bind_done _ _ _ _ _ (start_signal_eq pin w)).
  destruct (wait_while_cases AckLowTimeout pin LOW ACK_LOW_BUDGET (started pin w))
    as [(j & _ & _ & _ & E) | (_ & E)].
  2:{ rewrite (bind_abort _ _ _ _ _ E). intros [= <-]. now left. }
  rewrite (bind_done _ _ _ _ _ E).
  destruct (wait_while_cases AckHighTimeout pin HIGH ACK_HIGH_BUDGET
              (polled (S j) (started pin w)))
    as [(j' & _ & _ & _ & E') | (_ & E')].
  2:{ rewrite (bind_abort _ _ _ _ _ E'). intros [= <-]. right; now left. }
  rewrite (bind_done _ _ _ _ _ E').
  unfold bind at 1.
  destruct (read_bits _ _ _ _ _) as [[f|why'] w'] eqn:Eb; [discriminate|].
  intros [= <-]. right; right.
  destruct (read_bits_abort pin 40 0 empty_frame
              (polled (S j') (polled (S j) (started pin w))) why')
    as (i & Hi & H); [now rewrite Eb|].
  exists i. split; [lia | exact H].
Qed.

(** [read_frame] polls the pin at most
    [ACK_LOW_BUDGET + 1 + ACK_HIGH_BUDGET + 1 + 40 * (BIT_BUDGET + 2)]
    times and reads the clock at most 80 times; it changes nothing else
    after the start signal. *)
Lemma read_frame_world pin w :
  exists k t,
    k <= S ACK_LOW_BUDGET + S ACK_HIGH_BUDGET + 40 * (BIT_BUDGET + 2) /\
    t <= 80 /\
    snd (read_frame pin w) = ticked t (polled k (started pin w)).
Proof.
  unfold read_frame. rewrite (bind_done _ _ _ _ _ (start_signal_eq pin w)).
  destruct (wait_while_polls AckLowTimeout pin LOW ACK_LOW_BUDGET (started pin w))
    as (k1 & Hk1 & E1).
  unfold bind at 1.
  destruct (wait_while _ _ _ _ _) as [[r1|why1] w1]; simpl in E1; subst w1.
  2:{ exists k1, 0. split; [lia|]. split; [lia|]. reflexivity. }
  destruct (wait_while_polls AckHighTimeout pin HIGH ACK_HIGH_BUDGET
              (polled k1 (started pin w))) as (k2 & Hk2 & E2).
  unfold bind at 1.
  destruct (wait_while _ _ _ _ _) as [[r2|why2] w2]; simpl in E2; subst w2.
  2:{ exists (k2 + k1), 0. split; [lia|]. split; [lia|].
      now rewrite polled_polled. }
  destruct (read_bits_world pin 40 0 empty_frame
              (polled k2 (polled k1 (started pin w)))) as (k3 & t & Hk3 & Ht & E3).
  unfold bind.
  destruct (read_bits _ _ _ _ _) as [[f|why3] w3]; simpl in E3; subst w3;
    exists (k3 + k2 + k1), t; (split; [lia|]); (split; [lia|]);
    unfold ret; simpl; now rewrite !polled_polled.
Qed.

(** ** Packing *)

Lemma packed_empty : packed [] empty_frame.
Proof.
  split.
  - reflexivity.
  - simpl; lia.
  - reflexivity.
  - intros j Hj. do 5 (destruct j as [|j]; [cbn; lia|]). lia.
  - intros j n Hj Hn. rewrite nth_overflow by (simpl; lia).
    do 5 (destruct j as [|j]; [apply Z.bits_0|]). lia.
Qed.

(** Every store of the loop is inside the array. *)
Lemma packed_idx l f : packed l f -> length l < 40 -> idx f < 5.
Proof. intros [Hp Hc _ _ _] Hl. lia. Qed.

Lemma testbit_set (v c n : Z) :
  (0 <= c < 8)%Z -> (0 <= n < 8)%Z ->
  Z.testbit (wrap_u8 (Z.lor v (Z.shiftl 1 c))) n
    = Z.testbit v n || (c =? n)%Z.
Proof.
  intros Hc Hn. unfold wrap_u8. change 256%Z with (2 ^ 8)%Z.
  rewrite Z.mod_pow2_bits_low by lia.
  rewrite Z.lor_spec, Z.shiftl_1_l, Z.pow2_bits_eqb by lia.
  reflexivity.
Qed.

Lemma packed_push l f b :
  packed l f -> length l < 40 -> packed (l ++ [b]) (push_bit b f).
Proof.
  intros P Hl. pose proof (packed_idx l f P Hl) as Hi.
  destruct P as [Hp Hc Hlen Hu8 Hbit].
  set (bits' := if b then
                  <[idx f := wrap_u8 (Z.lor (bits f !!! idx f) (Z.shiftl 1 (cnt f)))]>
                    (bits f)
                else bits f).
  assert (length bits' = 5) as Hlen'.
  { unfold bits'. destruct b; [now rewrite length_insert | exact Hlen]. }
  assert (forall j, j < 5 -> (0 <= bits' !!! j < 256)%Z) as Hu8'.
  { intros j Hj. unfold bits'. destruct b; [|now apply Hu8].
    destruct (decide (idx f = j)) as [<-|Hne].
    - rewrite list_lookup_total_insert_eq by lia.
      unfold wrap_u8. apply Z.mod_pos_bound. lia.
    - rewrite list_lookup_total_insert_ne by exact Hne. now apply Hu8. }
  assert (forall j n, j < 5 -> n < 8 ->
            Z.testbit (bits' !!! j) (Z.of_nat n)
              = nth (8 * j + (7 - n)) (l ++ [b]) false) as Hbit'.
  { intros j n Hj Hn.
    destruct (decide (8 * j + (7 - n) = length l)) as [Hk|Hk].
    - (* the place the new bit goes to *)
      assert (j = idx f) as -> by lia.
      assert (cnt f = Z.of_nat n) as Hcn by lia.
      rewrite Hk, app_nth2, Nat.sub_diag by lia. simpl.
      pose proof (Hbit (idx f) n Hj Hn) as Hold.
      rewrite nth_overflow in Hold by lia.
      unfold bits'. destruct b; [|exact Hold].
      rewrite list_lookup_total_insert_eq by lia.
      rewrite testbit_set, Hold, Hcn by lia.
      now rewrite Z.eqb_refl.
    - (* every other place keeps its bit *)
      assert (nth (8 * j + (7 - n)) (l ++ [b]) false
              = nth (8 * j + (7 - n)) l false) as ->.
      { destruct (Nat.lt_ge_cases (8 * j + (7 - n)) (length l)) as [Hlt|Hge].
        - now rewrite app_nth1.
        - rewrite !nth_overflow; [reflexivity | lia |].
          rewrite length_app. simpl. lia. }
      rewrite <- (Hbit j n Hj Hn).
      unfold bits'. destruct b; [|reflexivity].
      destruct (decide (idx f = j)) as [<-|Hne].
      + rewrite list_lookup_total_insert_eq by lia.
        rewrite testbit_set by lia.
        replace (cnt f =? Z.of_nat n)%Z with false; [apply orb_false_r|].
        symmetry. apply Z.eqb_neq. lia.
      + now rewrite list_lookup_total_insert_ne. }
  unfold push_bit. fold bits'.
  destruct (cnt f =? 0)%Z eqn:E;
    [apply Z.eqb_eq in E | apply Z.eqb_neq in E];
    split; simpl; try assumption; rewrite ?length_app; simpl; lia.
Qed.

Lemma packed_pack l' : forall l f,
  packed l f -> length l + length l' <= 40 -> packed (l ++ l') (pack l' f).
Proof.
  induction l' as [|b l' IH]; intros l f P Hl; simpl.
  - now rewrite app_nil_r.
  - simpl in Hl.
    replace (l ++ b :: l') with ((l ++ [b]) ++ l') by now rewrite <- app_assoc.
    apply IH.
    + apply packed_push; [exact P | lia].
    + rewrite length_app. simpl. lia.
Qed.

Lemma packed_40 l : length l = 40 -> packed l (pack l empty_frame).
Proof.
  intros Hl. apply (packed_pack l [] empty_frame packed_empty). simpl. lia.
Qed.

(** A byte is its eight low bits. *)
Lemma u8_ext (x y : Z) :
  (0 <= x < 256)%Z -> (0 <= y < 256)%Z ->
  (forall n, n < 8 -> Z.testbit x (Z.of_nat n) = Z.testbit y (Z.of_nat n)) ->
  x = y.
Proof.
  intros Hx Hy H. apply Z.bits_inj'. intros n Hn.
  destruct (Z.lt_ge_cases n 8) as [Hlt|Hge].
  - specialize (H (Z.to_nat n) ltac:(lia)). now rewrite Z2Nat.id in H.
  - rewrite <- (Z.mod_small x (2 ^ 8)), <- (Z.mod_small y (2 ^ 8)) by (simpl; lia).
    now rewrite !Z.mod_pow2_bits_high by lia.
Qed.

(** Packing the bit stream of five bytes gives the five bytes back. *)
Lemma pack_frame_bits (bytes : list Z) :
  length bytes = 5 -> (forall j, j < 5 -> (0 <= bytes !!! j < 256)%Z) ->
  bits (pack (frame_bits bytes) empty_frame) = bytes.
Proof.
  intros Hlen Hu8.
  assert (length (frame_bits bytes) = 40) as Hl.
  { do 6 (destruct bytes as [|? bytes]; try discriminate).
    unfold frame_bits, byte_bits. cbn [map concat app length]. reflexivity. }
  destruct (packed_40 _ Hl) as [_ _ Hlen' Hu8' Hbit].
  apply list_eq_same_length with 5; [exact Hlen | exact Hlen' |].
  intros j x y Hj Hx Hy.
  apply list_lookup_total_correct in Hx, Hy. subst x y.
  apply u8_ext; [now apply Hu8' | now apply Hu8 |].
  intros n Hn. rewrite (Hbit j n Hj Hn).
  clear Hl Hlen' Hu8' Hbit.
  do 6 (destruct bytes as [|? bytes]; try discriminate).
  unfold frame_bits, byte_bits. cbn [map concat app].
  do 5 (destruct j as [|j]; [do 8 (destruct n as [|n]; [reflexivity|]); lia|]).
  lia.
Qed.

(** * The claims *)

(** ** Construction and the range of the readings *)

(** C8. A driver that has just been constructed has stored the pin it was
    given and set that pin to INPUT, as the last thing done to the
    outside, and both getters return 0. *)
Theorem construction_defaults (pin : Z) (w : World) :
  let d := fst (new_MyDHT11 pin w) in
  let w' := snd (new_MyDHT11 pin w) in
  _pin d = pin /\
  modes w' !! pin = Some INPUT /\
  trace w' = SetPinMode pin INPUT :: trace w /\
  getTemperature d = 0%Z /\ getHumidity d = 0%Z.
Proof.
  simpl. repeat split. apply lookup_insert_eq.
Qed.

(** The bytes of a complete frame. *)
Lemma read_frame_bytes pin w bs :
  fst (read_frame pin w) = Done bs ->
  length bs = 5 /\ forall j, j < 5 -> is_u8 (bs !!! j).
Proof.
  intros H. apply read_frame_done in H. subst bs.
  destruct (packed_40 (samples w) (length_samples w)) as [_ _ Hlen Hu8 _].
  split; [exact Hlen|]. intros j Hj. specialize (Hu8 j Hj). unfold is_u8. lia.
Qed.

Lemma read_cases d w :
  (exists why, fst (read_frame (_pin d) w) = ReturnFalse why /\
               read d w = (false, d, snd (read_frame (_pin d) w)))
  \/ (exists bs, fst (read_frame (_pin d) w) = Done bs /\
        fst (read d w)
          = ((bs !!! 4%nat =? checksum bs)%Z,
             mkMyDHT11 (_pin d) (bs !!! 2) (bs !!! 0))).
Proof.
  unfold read. destruct (read_frame (_pin d) w) as [[bs|why] w'].
  - right. exists bs. split; [reflexivity|].
    now destruct (bs !!! 4%nat =? checksum bs)%Z.
  - left. now exists why.
Qed.

Lemma read_u8 d w : u8_readings d -> u8_readings (snd (fst (read d w))).
Proof.
  intros Hd.
  destruct (read_cases d w) as [(why & _ & E) | (bs & Hbs & E)]; rewrite E.
  - exact Hd.
  - apply read_frame_bytes in Hbs as [_ Hu8].
    split; simpl; apply Hu8; lia.
Qed.

Lemma calls_u8 cs : forall d w,
  u8_readings d ->
  u8_readings (snd (fst (calls cs d w))) /\
  Forall u8_reply (fst (fst (calls cs d w))).
Proof.
  induction cs as [|c cs IH]; intros d w Hd; simpl.
  - split; [exact Hd | constructor].
  - assert (u8_readings (snd (fst (call c d w))) /\ u8_reply (fst (fst (call c d w))))
      as [Hd1 Hr].
    { destruct c; simpl.
      - pose proof (read_u8 d w Hd) as H.
        destruct (read d w) as [[b d'] w']. simpl in *. now split.
      - split; [exact Hd | apply Hd].
      - split; [exact Hd | apply Hd]. }
    destruct (call c d w) as [[r d1] w1]. simpl in Hd1, Hr.
    specialize (IH d1 w1 Hd1).
    destruct (calls cs d1 w1) as [[rs d2] w2]. simpl in *.
    split; [apply IH | constructor; [exact Hr | apply IH]].
Qed.

(** C9. Whatever calls follow the construction, in whatever world, the two
    stored readings are between 0 and 255 afterwards, and so is every
    value a getter returned on the way. *)
Theorem readings_are_u8 (pin : Z) (w : World) (cs : list Call) :
  let d0 := fst (new_MyDHT11 pin w) in
  let w0 := snd (new_MyDHT11 pin w) in
  let d := snd (fst (calls cs d0 w0)) in
  (0 <= getTemperature d <= 255)%Z /\ (0 <= getHumidity d <= 255)%Z /\
  Forall u8_reply (fst (fst (calls cs d0 w0))).
Proof.
  intros d0 w0 d.
  assert (u8_readings d0) as H0 by (split; simpl; unfold is_u8; lia).
  destruct (calls_u8 cs d0 w0 H0) as [[Ht Hh] Hrs].
  split; [exact Ht | split; [exact Hh | exact Hrs]].
Qed.

(** ** What [read()] stores and returns *)

(** A read that has the whole frame stores bytes 0 and 2 and returns the
    outcome of the checksum comparison. *)
Lemma read_complete d w bs :
  fst (read_frame (_pin d) w) = Done bs ->
  fst (read d w)
    = ((bs !!! 4%nat =? checksum bs)%Z,
       mkMyDHT11 (_pin d) (bs !!! 2%nat) (bs !!! 0%nat)).
Proof.
  intros H.
  destruct (read_cases d w) as [(why & E & _) | (bs' & E & ->)].
  - rewrite E in H. discriminate.
  - rewrite E in H. now injection H as ->.
Qed.

(** C1 (the code departs from it). A fresh driver, whose readings are 0,
    reads the complete frame 60, 0, 25, 0, 99, whose checksum is wrong:
    [read] returns false, prints the two checksums, and has all the same
    overwritten the stored readings with 60 and 25. *)
Theorem checksum_failure_overwrites :
  let d := mkMyDHT11 2 0 0 in
  let w := sensor_world 26 70 1000 [60; 0; 25; 0; 99]%Z in
  fst (read_frame (_pin d) w) = Done [60; 0; 25; 0; 99]%Z /\
  checksum [60; 0; 25; 0; 99]%Z = 85%Z /\
  fst (fst (read d w)) = false /\
  getHumidity d = 0%Z /\ getTemperature d = 0%Z /\
  getHumidity (snd (fst (read d w))) = 60%Z /\
  getTemperature (snd (fst (read d w))) = 25%Z /\
  firstn 5 (trace (snd (read d w)))
    = [SerialPrintlnInt 99; SerialPrint "Received checksum: ";
       SerialPrintlnInt 85; SerialPrint "Calculated checksum: ";
       SerialPrintln "Checksum validation failed."].
Proof. vm_compute. repeat split. Qed.

(** C2. Whenever the 40 bits of a frame have all been read, the stored
    humidity is byte 0 and the stored temperature is byte 2 of the buffer
    after the call, whatever the checksum comparison gives: [read] returns
    the outcome of that comparison, and the stores are the same for both
    outcomes. *)
Theorem read_stores_before_checksum (d : MyDHT11) (w : World) (bs : list Z) :
  fst (read_frame (_pin d) w) = Done bs ->
  fst (fst (read d w)) = (bs !!! 4%nat =? checksum bs)%Z /\
  _humidity (snd (fst (read d w))) = bs !!! 0%nat /\
  _temperature (snd (fst (read d w))) = bs !!! 2%nat /\
  _pin (snd (fst (read d w))) = _pin d.
Proof.
  intros H. rewrite (read_complete d w bs H). now simpl.
Qed.

Lemma read_stores_before_checksum_witness :
  fst (fst (read (mkMyDHT11 2 7 9)
              (sensor_world 26 70 1000 [60; 0; 25; 0; 99]%Z))) = false /\
  _humidity (snd (fst (read (mkMyDHT11 2 7 9)
              (sensor_world 26 70 1000 [60; 0; 25; 0; 99]%Z)))) = 60%Z /\
  _temperature (snd (fst (read (mkMyDHT11 2 7 9)
              (sensor_world 26 70 1000 [60; 0; 25; 0; 99]%Z)))) = 25%Z /\
  _pin (snd (fst (read (mkMyDHT11 2 7 9)
              (sensor_world 26 70 1000 [60; 0; 25; 0; 99]%Z)))) = 2%Z.
Proof.
  apply (read_stores_before_checksum (mkMyDHT11 2 7 9)
           (sensor_world 26 70 1000 [60; 0; 25; 0; 99]%Z)
           [60; 0; 25; 0; 99]%Z).
  vm_compute. reflexivity.
Defined.

(** C3. A read that stops in one of its polling loops (the two of the
    acknowledgment, or the LOW or the HIGH wait of one of the 40 bits,
    and there is no other way to stop early) returns false and leaves
    the driver, so both stored readings, as it was. *)
Theorem timeout_keeps_readings (d : MyDHT11) (w : World) (why : Abort) :
  fst (read_frame (_pin d) w) = ReturnFalse why ->
  (why = AckLowTimeout \/ why = AckHighTimeout \/
   exists i, i < 40 /\ (why = BitLowTimeout i \/ why = BitHighTimeout i)) /\
  fst (fst (read d w)) = false /\
  snd (fst (read d w)) = d /\
  getHumidity (snd (fst (read d w))) = getHumidity d /\
  getTemperature (snd (fst (read d w))) = getTemperature d.
Proof.
  intros H. split; [now apply read_frame_abort in H|].
  destruct (read_cases d w) as [(why' & _ & E) | (bs & E & _)].
  - now rewrite E.
  - rewrite E in H. discriminate.
Qed.

Lemma timeout_keeps_readings_witness :
  fst (fst (read (mkMyDHT11 2 25 60) (stuck_world HIGH))) = false /\
  snd (fst (read (mkMyDHT11 2 25 60) (stuck_world HIGH))) = mkMyDHT11 2 25 60.
Proof.
  destruct (timeout_keeps_readings (mkMyDHT11 2 25 60) (stuck_world HIGH)
              AckHighTimeout) as (_ & H1 & H2 & _).
  - vm_compute. reflexivity.
  - split; [exact H1 | exact H2].
Defined.

(** Each of the four kinds of timeout occurs. *)
Example timeouts_occur :
  fst (read_frame 2 (stuck_world LOW)) = ReturnFalse AckLowTimeout /\
  fst (read_frame 2 (stuck_world HIGH)) = ReturnFalse AckHighTimeout /\
  fst (read_frame 2 (sensor_world 26 70 0 [255]%Z)) = ReturnFalse (BitHighTimeout 8) /\
  fst (read_frame 2
         (mkWorld (fun _ k => nth k (frame_levels [255]%Z) LOW)
                  (fun _ => 0%Z) 0 0 ∅ []))
    = ReturnFalse (BitLowTimeout 8).
Proof. vm_compute. repeat split. Qed.

(** A complete read of a sensor that sends five bytes has those bytes in
    its buffer. *)
Lemma read_frame_sends pin w bs bytes :
  fst (read_frame pin w) = Done bs ->
  length bytes = 5 -> (forall j, j < 5 -> (0 <= bytes !!! j < 256)%Z) ->
  sends w bytes -> bs = bytes.
Proof.
  intros H Hlen Hu8 Hs. apply read_frame_done in H. subst bs.
  rewrite Hs. now apply pack_frame_bits.
Qed.

Lemma u8_bytes_5 (a b c d e : Z) :
  (0 <= a < 256)%Z -> (0 <= b < 256)%Z -> (0 <= c < 256)%Z ->
  (0 <= d < 256)%Z -> (0 <= e < 256)%Z ->
  forall j, j < 5 -> (0 <= [a; b; c; d; e] !!! j < 256)%Z.
Proof.
  intros Ha Hb Hc Hd He j Hj.
  do 5 (destruct j as [|j]; [assumption|]). lia.
Qed.

(** C4. When the 40 bits of a frame have all been read, [read] returns
    true exactly when byte 4 is [(byte 0 + byte 2) & 0xFF], and then the
    getters return byte 0 and byte 2.  In particular a complete read of a
    sensor that sends 60, 0, 25, 0, 85 returns true and leaves humidity 60
    and temperature 25. *)
Theorem read_success_iff_checksum :
  (forall (d : MyDHT11) (w : World) (bs : list Z),
     fst (read_frame (_pin d) w) = Done bs ->
     (fst (fst (read d w)) = true <->
      bs !!! 4%nat = Z.land (bs !!! 0%nat + bs !!! 2%nat) 255) /\
     (fst (fst (read d w)) = true ->
      getHumidity (snd (fst (read d w))) = bs !!! 0%nat /\
      getTemperature (snd (fst (read d w))) = bs !!! 2%nat)) /\
  (forall (d : MyDHT11) (w : World) (bs : list Z),
     fst (read_frame (_pin d) w) = Done bs ->
     sends w [60; 0; 25; 0; 85]%Z ->
     fst (fst (read d w)) = true /\
     getHumidity (snd (fst (read d w))) = 60%Z /\
     getTemperature (snd (fst (read d w))) = 25%Z).
Proof.
  split; intros d w bs H.
  - rewrite (read_complete d w bs H). simpl. split.
    + unfold checksum. apply Z.eqb_eq.
    + intros _. now split.
  - intros Hs.
    assert (bs = [60; 0; 25; 0; 85]%Z) as ->.
    { apply (read_frame_sends (_pin d) w); auto.
      apply u8_bytes_5; lia. }
    rewrite (read_complete d w _ H). repeat split.
Qed.

Lemma read_success_iff_checksum_witness :
  (fst (fst (read (mkMyDHT11 2 0 0)
               (sensor_world 26 70 1000 [60; 0; 25; 0; 85]%Z))) = true /\
   getHumidity (snd (fst (read (mkMyDHT11 2 0 0)
               (sensor_world 26 70 1000 [60; 0; 25; 0; 85]%Z)))) = 60%Z /\
   getTemperature (snd (fst (read (mkMyDHT11 2 0 0)
               (sensor_world 26 70 1000 [60; 0; 25; 0; 85]%Z)))) = 25%Z) /\
  (fst (fst (read (mkMyDHT11 2 0 0)
               (sensor_world 26 70 1000 [60; 0; 25; 0; 99]%Z))) = true <->
   99%Z = Z.land (60 + 25) 255).
Proof.
  split.
  - apply (proj2 read_success_iff_checksum (mkMyDHT11 2 0 0)
             (sensor_world 26 70 1000 [60; 0; 25; 0; 85]%Z)
             [60; 0; 25; 0; 85]%Z);
      vm_compute; reflexivity.
  - apply (proj1 read_success_iff_checksum (mkMyDHT11 2 0 0)
             (sensor_world 26 70 1000 [60; 0; 25; 0; 99]%Z)
             [60; 0; 25; 0; 99]%Z).
    vm_compute. reflexivity.
Defined.

(** ** The bits of a frame *)

(** Bit [i] of the stream is bit [7 - i mod 8] of byte [i / 8]. *)
Lemma read_frame_bit pin w bs i :
  fst (read_frame pin w) = Done bs -> i < 40 ->
  Z.testbit (bs !!! (i / 8)) (Z.of_nat (7 - i mod 8)) = nth i (samples w) false.
Proof.
  intros H Hi. apply read_frame_done in H. subst bs.
  destruct (packed_40 (samples w) (length_samples w)) as [_ _ _ _ Hbit].
  pose proof (Nat.div_mod_eq i 8) as Hdm.
  pose proof (Nat.mod_upper_bound i 8 ltac:(lia)) as Hm.
  assert (i / 8 < 5) as Hd by (apply Nat.Div0.div_lt_upper_bound; lia).
  rewrite Hbit by lia. f_equal. lia.
Qed.

(** The comparison at the two durations next to the threshold, whenever
    the first reading was taken, also across the wrap of the clock. *)
Lemma is_one_boundary (t : Z) :
  (0 <= t < 2 ^ 32)%Z ->
  is_one t (wrap_ulong (t + 50)) = false /\
  is_one t (wrap_ulong (t + 51)) = true.
Proof.
  intros Ht. unfold is_one, wrap_ulong, ULONG_BITS.
  rewrite !Zminus_mod_idemp_l.
  replace (t + 50 - t)%Z with 50%Z by lia.
  replace (t + 51 - t)%Z with 51%Z by lia.
  split; reflexivity.
Qed.

(** C5. In a read that gets all 40 bits, bit [i] of the frame (bit
    [7 - i mod 8] of byte [i / 8]) is 1 exactly when the high time of
    that bit, the difference of the two clock readings taken around its
    HIGH wait, is greater than 50: a high time of exactly 50 gives 0 and
    one of 51 gives 1. *)
Theorem bit_threshold (pin : Z) (w : World) (bs : list Z) (i : nat) :
  fst (read_frame pin w) = Done bs -> i < 40 ->
  Z.testbit (bs !!! (i / 8)) (Z.of_nat (7 - i mod 8))
    = (high_time w i >? 50)%Z /\
  (high_time w i = 50%Z ->
   Z.testbit (bs !!! (i / 8)) (Z.of_nat (7 - i mod 8)) = false) /\
  (high_time w i = 51%Z ->
   Z.testbit (bs !!! (i / 8)) (Z.of_nat (7 - i mod 8)) = true).
Proof.
  intros H Hi.
  rewrite (read_frame_bit pin w bs i H Hi), (nth_samples w i Hi).
  split; [reflexivity|]. split; intros ->; reflexivity.
Qed.

Lemma bit_threshold_witness :
  (high_time (sensor_world 50 51 4294967290 [1; 0; 0; 0; 1]%Z) 6 = 50%Z /\
   Z.testbit ([1; 0; 0; 0; 1]%Z !!! (6 / 8)) (Z.of_nat (7 - 6 mod 8)) = false) /\
  (high_time (sensor_world 50 51 4294967290 [1; 0; 0; 0; 1]%Z) 7 = 51%Z /\
   Z.testbit ([1; 0; 0; 0; 1]%Z !!! (7 / 8)) (Z.of_nat (7 - 7 mod 8)) = true).
Proof.
  split; (split; [vm_compute; reflexivity|]).
  - apply (bit_threshold 2 (sensor_world 50 51 4294967290 [1; 0; 0; 0; 1]%Z)
             [1; 0; 0; 0; 1]%Z 6); [vm_compute; reflexivity | lia |].
    vm_compute; reflexivity.
  - apply (bit_threshold 2 (sensor_world 50 51 4294967290 [1; 0; 0; 0; 1]%Z)
             [1; 0; 0; 0; 1]%Z 7); [vm_compute; reflexivity | lia |].
    vm_compute; reflexivity.
Defined.

(** C6. The counter starts at 7 on byte 0 of a zeroed buffer of 5 bytes;
    after a bit it goes down by one, or, from 0, back to 7 with the byte
    index one further.  So a complete read has bit [i] of the stream at
    bit [7 - i mod 8] of byte [i / 8], and when the sensor sends five
    bytes the buffer holds them in the order sent; [read] takes the
    humidity from byte 0 and the temperature from byte 2, so a complete
    read of 1, 0, 0, 0, 1 returns true with humidity 1 and temperature 0. *)
Theorem bits_packed_msb_first :
  (cnt empty_frame = 7%Z /\ idx empty_frame = 0 /\
   bits empty_frame = [0; 0; 0; 0; 0]%Z) /\
  (forall b f, cnt f <> 0%Z ->
     cnt (push_bit b f) = (cnt f - 1)%Z /\ idx (push_bit b f) = idx f) /\
  (forall b f, cnt f = 0%Z ->
     cnt (push_bit b f) = 7%Z /\ idx (push_bit b f) = S (idx f)) /\
  (forall pin w bs,
     fst (read_frame pin w) = Done bs ->
     bs = bits (pack (samples w) empty_frame) /\
     length bs = 5 /\
     forall i, i < 40 ->
       Z.testbit (bs !!! (i / 8)) (Z.of_nat (7 - i mod 8))
         = nth i (samples w) false) /\
  (forall pin w bs b0 b1 b2 b3 b4,
     fst (read_frame pin w) = Done bs ->
     (0 <= b0 < 256)%Z -> (0 <= b1 < 256)%Z -> (0 <= b2 < 256)%Z ->
     (0 <= b3 < 256)%Z -> (0 <= b4 < 256)%Z ->
     sends w [b0; b1; b2; b3; b4] ->
     bs = [b0; b1; b2; b3; b4]) /\
  (forall d w bs,
     fst (read_frame (_pin d) w) = Done bs ->
     sends w [1; 0; 0; 0; 1]%Z ->
     fst (fst (read d w)) = true /\
     getHumidity (snd (fst (read d w))) = 1%Z /\
     getTemperature (snd (fst (read d w))) = 0%Z).
Proof.
  split; [repeat split|].
  split; [|split]; [| |split; [|split]].
  - intros b f Hc. unfold push_bit.
    apply Z.eqb_neq in Hc. rewrite Hc. now split.
  - intros b f Hc. unfold push_bit.
    apply Z.eqb_eq in Hc. rewrite Hc. now split.
  - intros pin w bs H. split; [now apply read_frame_done in H|].
    split; [now apply read_frame_bytes in H|].
    intros i Hi. now apply (read_frame_bit pin).
  - intros pin w bs b0 b1 b2 b3 b4 H H0 H1 H2 H3 H4 Hs.
    apply (read_frame_sends pin w); auto. now apply u8_bytes_5.
  - intros d w bs H Hs.
    assert (bs = [1; 0; 0; 0; 1]%Z) as ->.
    { apply (read_frame_sends (_pin d) w); auto. apply u8_bytes_5; lia. }
    rewrite (read_complete d w _ H). repeat split.
Qed.

Lemma bits_packed_msb_first_witness :
  (cnt (push_bit true empty_frame) = 6%Z /\
   idx (push_bit true empty_frame) = 0) /\
  (cnt (push_bit true (mkFrame [0; 0; 0; 0; 0]%Z 0 2)) = 7%Z /\
   idx (push_bit true (mkFrame [0; 0; 0; 0; 0]%Z 0 2)) = 3) /\
  Z.testbit ([1; 0; 0; 0; 1]%Z !!! (39 / 8)) (Z.of_nat (7 - 39 mod 8))
    = nth 39 (samples (sensor_world 26 70 1000 [1; 0; 0; 0; 1]%Z)) false /\
  [1; 0; 0; 0; 1]%Z = [1; 0; 0; 0; 1]%Z /\
  (fst (fst (read (mkMyDHT11 2 0 0)
               (sensor_world 26 70 1000 [1; 0; 0; 0; 1]%Z))) = true /\
   getHumidity (snd (fst (read (mkMyDHT11 2 0 0)
               (sensor_world 26 70 1000 [1; 0; 0; 0; 1]%Z)))) = 1%Z /\
   getTemperature (snd (fst (read (mkMyDHT11 2 0 0)
               (sensor_world 26 70 1000 [1; 0; 0; 0; 1]%Z)))) = 0%Z).
Proof.
  destruct bits_packed_msb_first as (_ & Hdec & Hreset & Hbits & Hround & Hex).
  split; [|split; [|split; [|split]]].
  - apply Hdec. simpl. lia.
  - apply Hreset. reflexivity.
  - apply (Hbits 2%Z (sensor_world 26 70 1000 [1; 0; 0; 0; 1]%Z));
      [vm_compute; reflexivity | lia].
  - apply (Hround 2%Z (sensor_world 26 70 1000 [1; 0; 0; 0; 1]%Z));
      try lia; vm_compute; reflexivity.
  - apply (Hex (mkMyDHT11 2 0 0) (sensor_world 26 70 1000 [1; 0; 0; 0; 1]%Z)
             [1; 0; 0; 0; 1]%Z); vm_compute; reflexivity.
Defined.

(** ** Termination and the budgets *)

Lemma wait_while_abort_iff why pin lvl n w :
  (exists why', fst (wait_while why pin lvl n w) = ReturnFalse why') <->
  run w pin lvl (polls w) (S n).
Proof.
  split.
  - intros [why' H].
    destruct (wait_while_cases why pin lvl n w) as [(j & _ & _ & _ & E) | (Hr & _)].
    + rewrite E in H. discriminate.
    + exact Hr.
  - intros Hr. exists why. now rewrite (wait_while_abort why pin lvl n w Hr).
Qed.

Lemma read_frame_false d w why w' :
  read_frame (_pin d) w = (ReturnFalse why, w') -> read d w = (false, d, w').
Proof. intros H. unfold read. now rewrite H. Qed.

Lemma read_ack_low_timeout d w :
  run w (_pin d) LOW (polls w) (S ACK_LOW_BUDGET) ->
  read d w = (false, d, polled (S ACK_LOW_BUDGET) (started (_pin d) w)).
Proof.
  intros Hr. apply read_frame_false with AckLowTimeout.
  unfold read_frame.
  rewrite (bind_done _ _ _ _ _ (start_signal_eq (_pin d) w)).
  apply bind_abort. apply wait_while_abort. exact Hr.
Qed.

Lemma read_ack_high_timeout d w j :
  j <= ACK_LOW_BUDGET ->
  run w (_pin d) LOW (polls w) j ->
  run w (_pin d) HIGH (polls w + j) (S (S ACK_HIGH_BUDGET)) ->
  read d w
    = (false, d, polled (j + ACK_HIGH_BUDGET + 2) (started (_pin d) w)).
Proof.
  intros Hj Hlow Hhigh. apply read_frame_false with AckHighTimeout.
  unfold read_frame.
  rewrite (bind_done _ _ _ _ _ (start_signal_eq (_pin d) w)).
  rewrite (bind_done _ _ _ _ _
             (wait_while_done AckLowTimeout (_pin d) LOW ACK_LOW_BUDGET
                (started (_pin d) w) j Hj Hlow
                ltac:(apply not_LOW; specialize (Hhigh 0 ltac:(lia));
                      now rewrite Nat.add_0_r in Hhigh))).
  rewrite (bind_abort _ _ _ AckHighTimeout
             (polled (S ACK_HIGH_BUDGET) (polled (S j) (started (_pin d) w)))).
  - rewrite polled_polled. do 2 f_equal. lia.
  - apply wait_while_abort. intros k Hk. simpl.
    replace (S (j + polls w + k)) with (polls w + j + S k) by lia.
    apply Hhigh. lia.
Qed.

Lemma read_world d w :
  exists k t,
    k <= S ACK_LOW_BUDGET + S ACK_HIGH_BUDGET + 40 * (BIT_BUDGET + 2) /\
    t <= 80 /\
    polls (snd (read d w)) = k + polls w /\
    ticks (snd (read d w)) = t + ticks w.
Proof.
  destruct (read_frame_world (_pin d) w) as (k & t & Hk & Ht & E).
  exists k, t. split; [exact Hk|]. split; [exact Ht|].
  unfold read. destruct (read_frame (_pin d) w) as [[bs|why] w'];
    simpl in E; subst w'.
  - destruct (bs !!! 4%nat =? checksum bs)%Z; split; reflexivity.
  - split; reflexivity.
Qed.

(** C7. [read] is a total function of the world, whatever the pin shows:
    it polls the pin at most 10001 + 30001 + 40 * 10002 = 440082 times
    and reads the clock at most 80 times.  A polling loop with budget [n]
    returns false exactly when the pin shows the level waited on at
    [n + 1] polls in a row.  The budget is 10000 for the LOW wait of the
    acknowledgment and 30000 for its HIGH wait, and [read] returns false
    when either runs out.  Every bit starts with a budget of 10000 of its
    own, and it is sampled exactly when its [a] LOW polls and the [c]
    HIGH polls after the first HIGH one have [a + c <= 10000]: the HIGH
    wait goes on with what the LOW wait left.  A bit that is not sampled
    ends the loop, and [read] returns false. *)
Theorem read_terminates_within_budgets :
  (Z.of_nat ACK_LOW_BUDGET = 10000%Z /\ Z.of_nat ACK_HIGH_BUDGET = 30000%Z /\
   Z.of_nat BIT_BUDGET = 10000%Z) /\
  (forall d w, exists k t,
     (Z.of_nat k <= 440082)%Z /\ t <= 80 /\
     polls (snd (read d w)) = k + polls w /\
     ticks (snd (read d w)) = t + ticks w) /\
  (forall why pin lvl n w,
     (exists why', fst (wait_while why pin lvl n w) = ReturnFalse why') <->
     run w pin lvl (polls w) (S n)) /\
  (forall d w,
     run w (_pin d) LOW (polls w) (S ACK_LOW_BUDGET) ->
     fst (read d w) = (false, d) /\
     polls (snd (read d w)) = S ACK_LOW_BUDGET + polls w) /\
  (forall d w j,
     j <= ACK_LOW_BUDGET ->
     run w (_pin d) LOW (polls w) j ->
     run w (_pin d) HIGH (polls w + j) (S (S ACK_HIGH_BUDGET)) ->
     fst (read d w) = (false, d) /\
     polls (snd (read d w)) = j + ACK_HIGH_BUDGET + 2 + polls w) /\
  (forall i pin w,
     (exists b, fst (sample_bit i pin w) = Done b) <->
     (exists a c, a + c <= BIT_BUDGET /\
        run w pin LOW (polls w) a /\
        run w pin HIGH (polls w + a) (S c) /\
        signal w pin (polls w + a + S c) = LOW)) /\
  (forall pin n i f w,
     read_bits pin (S n) i f w
       = match sample_bit i pin w with
         | (Done b, w') => read_bits pin n (S i) (push_bit b f) w'
         | (ReturnFalse why, w') => (ReturnFalse why, w')
         end) /\
  (forall d w why,
     fst (read_frame (_pin d) w) = ReturnFalse why ->
     fst (read d w) = (false, d)).
Proof.
  split; [exact budgets|].
  split.
  { intros d w. destruct (read_world d w) as (k & t & Hk & Ht & Hp & Hc).
    exists k, t. destruct budgets as (B1 & B2 & B3).
    split; [lia|]. split; [exact Ht|]. split; [exact Hp | exact Hc]. }
  split; [exact wait_while_abort_iff|].
  split.
  { intros d w Hr. now rewrite (read_ack_low_timeout d w Hr). }
  split.
  { intros d w j Hj Hl Hh. now rewrite (read_ack_high_timeout d w j Hj Hl Hh). }
  split; [exact sample_bit_done_iff|].
  split; [reflexivity|].
  intros d w why H.
  destruct (read_cases d w) as [(why' & _ & E) | (bs & E & _)].
  - now rewrite E.
  - rewrite E in H. discriminate.
Qed.

Lemma read_terminates_within_budgets_witness :
  (fst (read (mkMyDHT11 2 25 60) (stuck_world LOW)) = (false, mkMyDHT11 2 25 60) /\
   polls (snd (read (mkMyDHT11 2 25 60) (stuck_world LOW)))
     = S ACK_LOW_BUDGET + 0) /\
  (fst (read (mkMyDHT11 2 25 60) (stuck_world HIGH)) = (false, mkMyDHT11 2 25 60) /\
   polls (snd (read (mkMyDHT11 2 25 60) (stuck_world HIGH)))
     = 0 + ACK_HIGH_BUDGET + 2 + 0) /\
  (exists b, fst (sample_bit 0 2
                    (mkWorld (fun _ k => nth k [LOW; HIGH; HIGH; LOW] HIGH)
                             (fun _ => 0%Z) 0 0 ∅ [])) = Done b) /\
  run (stuck_world LOW) 2 LOW 0 (S BIT_BUDGET).
Proof.
  destruct read_terminates_within_budgets
    as (_ & _ & Hwait & Hlow & Hhigh & Hbit & _ & _).
  split; [|split; [|split]].
  - apply (Hlow (mkMyDHT11 2 25 60) (stuck_world LOW)).
    intros k Hk. reflexivity.
  - apply (Hhigh (mkMyDHT11 2 25 60) (stuck_world HIGH) 0).
    + lia.
    + intros k Hk. lia.
    + intros k Hk. reflexivity.
  - apply Hbit. exists 1, 1. split; [vm_compute; lia|].
    split; [|split].
    + intros k Hk. destruct k; [reflexivity | lia].
    + intros k Hk. do 2 (destruct k; [reflexivity|]). lia.
    + reflexivity.
  - apply (Hwait (BitLowTimeout 0) 2%Z LOW BIT_BUDGET (stuck_world LOW)).
    exists (BitLowTimeout 0). vm_compute. reflexivity.
Defined.

(** ** The helper [waitForState] *)

Lemma gtb_false (a b : Z) : (a <= b)%Z -> (a >? b)%Z = false.
Proof. intros H. rewrite Z.gtb_ltb. now apply Z.ltb_ge. Qed.

Lemma gtb_true (a b : Z) : (a > b)%Z -> (a >? b)%Z = true.
Proof. intros H. rewrite Z.gtb_ltb. apply Z.ltb_lt. lia. Qed.

Section WaitForState.
Variables (pin state timeout startTime : Z).

Lemma waitForState_loop_step fuel w :
  waitForState_loop (S fuel) pin state timeout startTime w =
    if negb (level_value (signal w pin (polls w)) =? state)%Z then
      if (wrap_ulong (wrap_ulong (clock w (ticks w)) - startTime) >? timeout)%Z
      then (Done (Some false), ticked 1 (polled 1 w))
      else waitForState_loop fuel pin state timeout startTime
             (ticked 1 (polled 1 w))
    else (Done (Some true), polled 1 w).
Proof.
  simpl. unfold bind, digitalRead, micros, ret.
  destruct (negb _); [|reflexivity]. simpl.
  destruct (_ >? _)%Z; reflexivity.
Qed.

(** [j] polls that do not show [state], each followed by a check that
    finds the timeout not exceeded, bring the loop to the next poll. *)
Lemma waitForState_loop_skip j : forall fuel w,
  (forall k, k < j ->
     level_value (signal w pin (polls w + k)) <> state /\
     (wrap_ulong (wrap_ulong (clock w (ticks w + k)) - startTime)
        <= timeout)%Z) ->
  waitForState_loop (j + fuel) pin state timeout startTime w
    = waitForState_loop fuel pin state timeout startTime
        (ticked j (polled j w)).
Proof.
  induction j as [|j IH]; intros fuel w H.
  - now destruct w.
  - replace (S j + fuel) with (S (j + fuel)) by lia.
    rewrite waitForState_loop_step.
    destruct (H 0 ltac:(lia)) as [Hne Hle]. rewrite !Nat.add_0_r in *.
    apply Z.eqb_neq in Hne. rewrite Hne. simpl negb. cbv iota.
    rewrite (gtb_false _ _ Hle).
    rewrite IH.
    + f_equal. unfold ticked, polled; simpl. apply world_eq; lia.
    + intros k Hk. simpl.
      replace (S (polls w + k)) with (polls w + S k) by lia.
      replace (S (ticks w + k)) with (ticks w + S k) by lia.
      apply H. lia.
Qed.

End WaitForState.

Lemma waitForState_true d state timeout w j fuel :
  j < fuel ->
  (forall k, k < j ->
     level_value (signal w (_pin d) (polls w + k)) <> state /\
     (elapsed w k <= timeout)%Z) ->
  level_value (signal w (_pin d) (polls w + j)) = state ->
  waitForState fuel d state timeout w
    = (Some true, d, ticked (S j) (polled (S j) w)).
Proof.
  intros Hf Hskip Hat. unfold waitForState.
  rewrite (bind_done _ _ _ _ _ (micros_eq w)).
  replace fuel with (j + S (fuel - S j)) by lia.
  rewrite waitForState_loop_skip by (intros k Hk; apply (Hskip k Hk)).
  rewrite waitForState_loop_step. simpl.
  replace (j + polls w) with (polls w + j) by lia.
  apply Z.eqb_eq in Hat. rewrite Hat. simpl.
  f_equal. unfold ticked, polled; simpl. apply world_eq; lia.
Qed.

Lemma waitForState_false d state timeout w j fuel :
  j < fuel ->
  (forall k, k <= j ->
     level_value (signal w (_pin d) (polls w + k)) <> state) ->
  (forall k, k < j -> (elapsed w k <= timeout)%Z) ->
  (elapsed w j > timeout)%Z ->
  waitForState fuel d state timeout w
    = (Some false, d, ticked (S (S j)) (polled (S j) w)).
Proof.
  intros Hf Hne Hle Hgt. unfold waitForState.
  rewrite (bind_done _ _ _ _ _ (micros_eq w)).
  replace fuel with (j + S (fuel - S j)) by lia.
  rewrite waitForState_loop_skip
    by (intros k Hk; split; [apply Hne; lia | apply (Hle k Hk)]).
  rewrite waitForState_loop_step.
  unfold ticked, polled; cbn [signal clock polls ticks modes trace Nat.add].
  replace (j + polls w) with (polls w + j) by lia.
  specialize (Hne j ltac:(lia)). apply Z.eqb_neq in Hne. rewrite Hne.
  unfold elapsed in Hgt.
  replace (j + S (ticks w)) with (S (ticks w + j)) by lia.
  rewrite (gtb_true _ _ Hgt). cbn [negb].
  f_equal. apply world_eq; lia.
Qed.

Lemma waitForState_driver fuel d state timeout w :
  snd (fst (waitForState fuel d state timeout w)) = d.
Proof.
  unfold waitForState.
  now destruct (bind micros _ w) as [[r|why] w'].
Qed.

(** C10. For every level asked for and every timeout: [waitForState]
    returns true at the first poll that shows the level, having polled no
    further, when no check before it found the timeout exceeded; it
    returns false at the first check that finds the elapsed microseconds
    greater than the timeout, when no poll up to then showed the level.
    With enough fuel these are results, and in every case the driver,
    with its stored readings, is as before. *)
Theorem waitForState_contract (d : MyDHT11) (state timeout : Z) (w : World) :
  (forall j fuel,
     j < fuel ->
     (forall k, k < j ->
        level_value (signal w (_pin d) (polls w + k)) <> state /\
        (elapsed w k <= timeout)%Z) ->
     level_value (signal w (_pin d) (polls w + j)) = state ->
     waitForState fuel d state timeout w
       = (Some true, d, ticked (S j) (polled (S j) w))) /\
  (forall j fuel,
     j < fuel ->
     (forall k, k <= j ->
        level_value (signal w (_pin d) (polls w + k)) <> state) ->
     (forall k, k < j -> (elapsed w k <= timeout)%Z) ->
     (elapsed w j > timeout)%Z ->
     waitForState fuel d state timeout w
       = (Some false, d, ticked (S (S j)) (polled (S j) w))) /\
  (forall fuel,
     snd (fst (waitForState fuel d state timeout w)) = d /\
     getHumidity (snd (fst (waitForState fuel d state timeout w)))
       = getHumidity d /\
     getTemperature (snd (fst (waitForState fuel d state timeout w)))
       = getTemperature d).
Proof.
  split; [|split].
  - intros j fuel. apply waitForState_true.
  - intros j fuel. apply waitForState_false.
  - intros fuel. now rewrite waitForState_driver.
Qed.

Lemma waitForState_contract_witness :
  waitForState 3 (mkMyDHT11 2 25 60) 1 25 (slow_world [LOW; LOW; HIGH])
    = (Some true, mkMyDHT11 2 25 60,
       ticked 3 (polled 3 (slow_world [LOW; LOW; HIGH]))) /\
  waitForState 3 (mkMyDHT11 2 25 60) 1 25 (slow_world [])
    = (Some false, mkMyDHT11 2 25 60, ticked 4 (polled 3 (slow_world []))) /\
  snd (fst (waitForState 0 (mkMyDHT11 2 25 60) 1 25 (slow_world [])))
    = mkMyDHT11 2 25 60.
Proof.
  split; [|split].
  - apply (proj1 (waitForState_contract (mkMyDHT11 2 25 60) 1 25
                    (slow_world [LOW; LOW; HIGH])) 2 3).
    + lia.
    + intros k Hk.
      do 2 (destruct k as [|k]; [split; vm_compute; congruence|]). lia.
    + reflexivity.
  - apply (proj1 (proj2 (waitForState_contract (mkMyDHT11 2 25 60) 1 25
                           (slow_world []))) 2 3).
    + lia.
    + intros k Hk.
      do 3 (destruct k as [|k]; [vm_compute; congruence|]). lia.
    + intros k Hk.
      do 2 (destruct k as [|k]; [vm_compute; congruence|]). lia.
    + vm_compute. reflexivity.
  - apply (proj2 (proj2 (waitForState_contract (mkMyDHT11 2 25 60) 1 25
                           (slow_world []))) 0).
Defined.

(** * Further properties of the driver *)

(** ** The outputs and the pin mode after a read *)

Lemma read_frame_outputs pin w :
  trace (snd (read_frame pin w)) = start_events pin ++ trace w /\
  modes (snd (read_frame pin w))
    = <[pin := INPUT_PULLUP]> (<[pin := OUTPUT]> (modes w)).
Proof.
  destruct (read_frame_world pin w) as (k & t & _ & _ & E).
  rewrite E. split; reflexivity.
Qed.

(** X1. Whatever the line does, [read] first sends the start signal (pin
    to OUTPUT, LOW, 18 ms, HIGH, 40 us, pin to INPUT_PULLUP) and then
    writes nothing more, except for the three diagnostic lines when a
    complete frame has a wrong checksum: nothing is printed on a timeout
    or on success. *)
Theorem read_outputs (d : MyDHT11) (w : World) :
  trace (snd (read d w))
    = diagnostics (fst (read_frame (_pin d) w))
        ++ start_events (_pin d) ++ trace w.
Proof.
  destruct (read_frame_outputs (_pin d) w) as [Ht _].
  unfold read. destruct (read_frame (_pin d) w) as [[bs|why] w']; simpl in *.
  - destruct (bs !!! 4%nat =? checksum bs)%Z; simpl; now rewrite Ht.
  - exact Ht.
Qed.

(** X2. After every [read], successful or not, the driver's pin is left
    in mode INPUT_PULLUP, not in the INPUT of the constructor, and the
    mode of every other pin is as before. *)
Theorem read_leaves_pullup (d : MyDHT11) (w : World) :
  modes (snd (read d w)) !! _pin d = Some INPUT_PULLUP /\
  forall p, p <> _pin d -> modes (snd (read d w)) !! p = modes w !! p.
Proof.
  destruct (read_frame_outputs (_pin d) w) as [_ Hm].
  assert (modes (snd (read d w)) = modes (snd (read_frame (_pin d) w))) as ->.
  { unfold read. destruct (read_frame (_pin d) w) as [[bs|why] w']; simpl.
    - now destruct (bs !!! 4%nat =? checksum bs)%Z.
    - reflexivity. }
  rewrite Hm. split.
  - apply lookup_insert_eq.
  - intros p Hp. now rewrite !lookup_insert_ne by congruence.
Qed.

Lemma read_leaves_pullup_witness :
  modes (snd (read (mkMyDHT11 2 0 0) (snd (new_MyDHT11 2 (stuck_world HIGH)))))
    !! 3%Z = None.
Proof.
  rewrite (proj2 (read_leaves_pullup (mkMyDHT11 2 0 0)
                    (snd (new_MyDHT11 2 (stuck_world HIGH)))) 3%Z).
  - reflexivity.
  - simpl. lia.
Defined.

(** ** What a successful read guarantees *)

Lemma land_255 (x : Z) : Z.land x 255 = (x mod 256)%Z.
Proof. change 255%Z with (Z.ones 8). now rewrite Z.land_ones by lia. Qed.

(** X3. [read] returns true only on a complete frame, and then the two
    stored readings are bytes, their sum modulo 256 is the checksum byte
    the sensor sent, and nothing was printed. *)
Theorem read_true_guarantees (d : MyDHT11) (w : World) :
  fst (fst (read d w)) = true ->
  exists bs,
    fst (read_frame (_pin d) w) = Done bs /\
    getHumidity (snd (fst (read d w))) = bs !!! 0%nat /\
    getTemperature (snd (fst (read d w))) = bs !!! 2%nat /\
    (0 <= getHumidity (snd (fst (read d w))) <= 255)%Z /\
    (0 <= getTemperature (snd (fst (read d w))) <= 255)%Z /\
    ((getHumidity (snd (fst (read d w)))
      + getTemperature (snd (fst (read d w)))) mod 256)%Z = bs !!! 4%nat /\
    trace (snd (read d w)) = start_events (_pin d) ++ trace w.
Proof.
  intros H.
  destruct (read_cases d w) as [(why & _ & E) | (bs & Hbs & E)].
  - rewrite E in H. discriminate.
  - exists bs. pose proof (read_outputs d w) as Ht.
    rewrite E in *. simpl in *.
    destruct (read_frame_bytes _ _ _ Hbs) as [_ Hu8].
    pose proof (Hu8 0 ltac:(lia)) as H0. pose proof (Hu8 2 ltac:(lia)) as H2.
    unfold is_u8 in *.
    apply Z.eqb_eq in H as Hc. unfold checksum in Hc. rewrite land_255 in Hc.
    rewrite Hbs in Ht. simpl in Ht. rewrite H in Ht.
    repeat split; try lia; auto.
Qed.

Lemma read_true_guarantees_witness :
  exists bs,
    fst (read_frame 2 (sensor_world 26 70 1000 [200; 0; 100; 0; 44]%Z)) = Done bs /\
    ((200 + 100) mod 256)%Z = bs !!! 4%nat.
Proof.
  destruct (read_true_guarantees (mkMyDHT11 2 0 0)
              (sensor_world 26 70 1000 [200; 0; 100; 0; 44]%Z))
    as (bs & Hbs & Hh & Ht & _ & _ & Hsum & _).
  - vm_compute. reflexivity.
  - exists bs. split; [exact Hbs|].
    assert (bs = [200; 0; 100; 0; 44]%Z) as E.
    { cut (Done bs = Done [200; 0; 100; 0; 44]%Z); [congruence|].
      rewrite <- Hbs. vm_compute. reflexivity. }
    rewrite E. reflexivity.
Defined.

(** ** What a read depends on *)

Lemma pair_eq {A B} (a a' : A) (b b' : B) :
  a = a' -> b = b' -> (a, b) = (a', b').
Proof. now intros -> ->. Qed.

Lemma step_eq a a' b b' w :
  a = a' -> b = b' -> ticked a (polled b w) = ticked a' (polled b' w).
Proof. now intros -> ->. Qed.

Lemma same_line_refl pin w : same_line pin w w.
Proof. repeat split. Qed.

Lemma same_line_step pin w w' t k :
  same_line pin w w' ->
  same_line pin (ticked t (polled k w)) (ticked t (polled k w')).
Proof.
  intros (Hp & Ht & Hs). unfold same_line; simpl.
  rewrite Hp, Ht. repeat split. exact Hs.
Qed.

Lemma same_line_started pin w w' :
  same_line pin w w' -> same_line pin (started pin w) (started pin w').
Proof. intros H. exact H. Qed.

Lemma same_line_run pin lvl w w' n :
  same_line pin w w' ->
  run w pin lvl (polls w) n -> run w' pin lvl (polls w') n.
Proof.
  intros (Hp & _ & Hs) Hr k Hk. rewrite <- Hp, <- Hs. now apply Hr.
Qed.

(** A polling loop does the same in two worlds with the same line. *)
Lemma wait_while_same why pin lvl n w w' :
  same_line pin w w' ->
  exists r k, 1 <= k /\
    wait_while why pin lvl n w = (r, polled k w) /\
    wait_while why pin lvl n w' = (r, polled k w').
Proof.
  intros Hsl.
  destruct (wait_while_cases why pin lvl n w) as [(j & Hj & Hr & Hs & E) | (Hr & E)].
  - exists (Done (n - j)), (S j). split; [lia|]. split; [exact E|].
    apply wait_while_done; [exact Hj | now apply (same_line_run pin lvl w) |].
    destruct Hsl as (Hp & _ & Hsig). now rewrite <- Hp, <- Hsig.
  - exists (ReturnFalse why), (S n). split; [lia|]. split; [exact E|].
    apply wait_while_abort. now apply (same_line_run pin lvl w).
Qed.

Lemma sample_bit_same i pin w w' :
  same_line pin w w' ->
  (exists k, 2 <= k /\
     sample_bit i pin w
       = (Done (bit_at w (ticks w)), ticked 2 (polled k w)) /\
     sample_bit i pin w'
       = (Done (bit_at w' (ticks w')), ticked 2 (polled k w')))
  \/ (exists why k t,
        sample_bit i pin w = (ReturnFalse why, ticked t (polled k w)) /\
        sample_bit i pin w' = (ReturnFalse why, ticked t (polled k w'))).
Proof.
  intros Hsl. unfold sample_bit.
  destruct (wait_while_same (BitLowTimeout i) pin LOW BIT_BUDGET w w' Hsl)
    as ([loopCnt|why] & k1 & Hk1 & E & E').
  2:{ right. exists why, k1, 0.
      now rewrite (bind_abort _ _ _ _ _ E), (bind_abort _ _ _ _ _ E'). }
  rewrite (bind_done _ _ _ _ _ E), (bind_done _ _ _ _ _ E').
  rewrite (bind_done _ _ _ _ _ (micros_eq _)), (bind_done _ _ _ _ _ (micros_eq _)).
  pose proof (same_line_step pin w w' 1 k1 Hsl) as Hsl1.
  destruct (wait_while_same (BitHighTimeout i) pin HIGH loopCnt _ _ Hsl1)
    as ([r2|why] & k2 & Hk2 & F & F').
  2:{ right. exists why, (k2 + k1), 1.
      rewrite (bind_abort _ _ _ _ _ F), (bind_abort _ _ _ _ _ F').
      now rewrite !polled_ticked, !polled_polled. }
  left. exists (k2 + k1). split; [lia|].
  rewrite (bind_done _ _ _ _ _ F), (bind_done _ _ _ _ _ F').
  rewrite (bind_done _ _ _ _ _ (micros_eq _)), (bind_done _ _ _ _ _ (micros_eq _)).
  unfold ret.
  rewrite !polled_ticked, !polled_polled, !ticked_ticked.
  split; reflexivity.
Qed.

(** The loop over the bits goes the same way in two worlds with the same
    line, whatever bits the two clocks give. *)
Lemma read_bits_same pin n : forall i f f' w w',
  same_line pin w w' ->
  (exists k, 2 * n <= k /\
     read_bits pin n i f w
       = (Done (pack (samples_from w (ticks w) n) f),
          ticked (2 * n) (polled k w)) /\
     read_bits pin n i f' w'
       = (Done (pack (samples_from w' (ticks w') n) f'),
          ticked (2 * n) (polled k w')))
  \/ (exists why k t,
        read_bits pin n i f w = (ReturnFalse why, ticked t (polled k w)) /\
        read_bits pin n i f' w' = (ReturnFalse why, ticked t (polled k w'))).
Proof.
  induction n as [|n IH]; intros i f f' w w' Hsl.
  - left. exists 0. split; [lia|]. simpl. unfold ret.
    split; f_equal; [now destruct w | now destruct w'].
  - cbn [read_bits].
    destruct (sample_bit_same i pin w w' Hsl)
      as [(k1 & Hk1 & E & E') | (why & k1 & t1 & E & E')].
    2:{ right. exists why, k1, t1.
        now rewrite (bind_abort _ _ _ _ _ E), (bind_abort _ _ _ _ _ E'). }
    rewrite (bind_done _ _ _ _ _ E), (bind_done _ _ _ _ _ E').
    pose proof (same_line_step pin w w' 2 k1 Hsl) as Hsl1.
    destruct (IH (S i) (push_bit (bit_at w (ticks w)) f)
                 (push_bit (bit_at w' (ticks w')) f') _ _ Hsl1)
      as [(k & Hk & F & F') | (why & k & t & F & F')].
    + left. exists (k + k1). split; [lia|].
      rewrite F, F'. cbn [samples_from pack fold_left].
      rewrite !polled_ticked, !polled_polled, !ticked_ticked.
      rewrite (samples_from_clock w (ticked 2 (polled k1 w))) by reflexivity.
      rewrite (samples_from_clock w' (ticked 2 (polled k1 w'))) by reflexivity.
      split; (apply pair_eq; [reflexivity | apply step_eq; lia]).
    + right. exists why, (k + k1), (t + 2).
      rewrite F, F'.
      rewrite !polled_ticked, !polled_polled, !ticked_ticked.
      split; reflexivity.
Qed.

Lemma read_frame_same pin w w' :
  same_line pin w w' ->
  (exists k, 82 <= k /\
     read_frame pin w
       = (Done (bits (pack (samples w) empty_frame)),
          ticked 80 (polled k (started pin w))) /\
     read_frame pin w'
       = (Done (bits (pack (samples w') empty_frame)),
          ticked 80 (polled k (started pin w'))))
  \/ (exists why k t,
        read_frame pin w
          = (ReturnFalse why, ticked t (polled k (started pin w))) /\
        read_frame pin w'
          = (ReturnFalse why, ticked t (polled k (started pin w')))).
Proof.
  intros Hsl. apply same_line_started in Hsl. unfold read_frame.
  rewrite (bind_done _ _ _ _ _ (start_signal_eq pin w)),
          (bind_done _ _ _ _ _ (start_signal_eq pin w')).
  destruct (wait_while_same AckLowTimeout pin LOW ACK_LOW_BUDGET _ _ Hsl)
    as ([r1|why] & k1 & Hk1 & E & E').
  2:{ right. exists why, k1, 0.
      now rewrite (bind_abort _ _ _ _ _ E), (bind_abort _ _ _ _ _ E'). }
  rewrite (bind_done _ _ _ _ _ E), (bind_done _ _ _ _ _ E').
  pose proof (same_line_step pin _ _ 0 k1 Hsl) as Hsl1.
  destruct (wait_while_same AckHighTimeout pin HIGH ACK_HIGH_BUDGET _ _ Hsl1)
    as ([r2|why] & k2 & Hk2 & F & F').
  2:{ right. exists why, (k2 + k1), 0.
      change (polled k1 (started pin w))
        with (ticked 0 (polled k1 (started pin w))).
      change (polled k1 (started pin w'))
        with (ticked 0 (polled k1 (started pin w'))).
      rewrite (bind_abort _ _ _ _ _ F), (bind_abort _ _ _ _ _ F').
      now rewrite !polled_ticked, !polled_polled. }
  pose proof (same_line_step pin _ _ 0 k2 Hsl1) as Hsl2.
  change (polled k1 (started pin w))
    with (ticked 0 (polled k1 (started pin w))).
  change (polled k1 (started pin w'))
    with (ticked 0 (polled k1 (started pin w'))).
  rewrite (bind_done _ _ _ _ _ F), (bind_done _ _ _ _ _ F').
  change (polled k2 (ticked 0 (polled k1 (started pin w))))
    with (ticked 0 (polled k2 (ticked 0 (polled k1 (started pin w))))).
  change (polled k2 (ticked 0 (polled k1 (started pin w'))))
    with (ticked 0 (polled k2 (ticked 0 (polled k1 (started pin w'))))).
  destruct (read_bits_same pin 40 0 empty_frame empty_frame _ _ Hsl2)
    as [(k & Hk & G & G') | (why & k & t & G & G')].
  - left. exists (k + k2 + k1). split; [lia|].
    rewrite (bind_done _ _ _ _ _ G), (bind_done _ _ _ _ _ G'). unfold ret.
    rewrite !samples_eq.
    rewrite !polled_ticked, !polled_polled, !ticked_ticked.
    split; (apply pair_eq; [| apply step_eq; lia]);
      do 3 f_equal; now apply samples_from_clock.
  - right. exists why, (k + k2 + k1), t.
    rewrite (bind_abort _ _ _ _ _ G), (bind_abort _ _ _ _ _ G').
    rewrite !polled_ticked, !polled_polled, !ticked_ticked.
    split; (apply pair_eq; [reflexivity | apply step_eq; lia]).
Qed.

Lemma read_same d w w' :
  same_line (_pin d) w w' -> samples w = samples w' ->
  fst (read d w) = fst (read d w').
Proof.
  intros Hsl Hs. unfold read.
  destruct (read_frame_same (_pin d) w w' Hsl)
    as [(k & _ & E & E') | (why & k & t & E & E')]; rewrite E, E'.
  - rewrite Hs.
    now destruct (_ =? _)%Z.
  - reflexivity.
Qed.

Lemma wrap_sub (a b : Z) :
  wrap_ulong (wrap_ulong a - wrap_ulong b) = wrap_ulong (a - b).
Proof. unfold wrap_ulong. symmetry. apply Zminus_mod. Qed.

Lemma samples_shift_clock c w : samples (shift_clock c w) = samples w.
Proof.
  unfold samples. apply map_ext. intros i. unfold high_time.
  rewrite !wrap_sub. simpl. do 2 f_equal. lia.
Qed.

(** X4. A read that gets the whole frame has read the clock exactly 80
    times, twice per bit, and polled the pin at least 82 times (once to
    leave each of the two acknowledgment loops and each of the 80 bit
    loops). *)
Theorem complete_read_cost (d : MyDHT11) (w : World) (bs : list Z) :
  fst (read_frame (_pin d) w) = Done bs ->
  ticks (snd (read d w)) = 80 + ticks w /\
  82 + polls w <= polls (snd (read d w)).
Proof.
  intros H. unfold read.
  destruct (read_frame_same (_pin d) w w (same_line_refl _ w))
    as [(k & Hk & E & _) | (why & k & t & E & _)]; rewrite E in *.
  - destruct (_ =? _)%Z; simpl; split; lia.
  - discriminate.
Qed.

Lemma complete_read_cost_witness :
  ticks (snd (read (mkMyDHT11 2 0 0)
            (sensor_world 26 70 1000 [60; 0; 25; 0; 99]%Z))) = 80 + 0 /\
  82 + 0 <= polls (snd (read (mkMyDHT11 2 0 0)
                     (sensor_world 26 70 1000 [60; 0; 25; 0; 99]%Z))).
Proof.
  apply (complete_read_cost (mkMyDHT11 2 0 0)
           (sensor_world 26 70 1000 [60; 0; 25; 0; 99]%Z)
           [60; 0; 25; 0; 99]%Z).
  vm_compute. reflexivity.
Defined.

(** X5. Whether [read] times out, in which loop, and how often it polls
    the pin and reads the clock, is decided by the levels of its own pin
    alone: two worlds that show the same levels on that pin, with any two
    clocks, any other pins, pin modes and earlier outputs, agree on all of
    these.  The timeouts count polls, not microseconds. *)
Theorem timeouts_ignore_clock (d : MyDHT11) (w w' : World) :
  same_line (_pin d) w w' ->
  (forall why,
     fst (read_frame (_pin d) w) = ReturnFalse why <->
     fst (read_frame (_pin d) w') = ReturnFalse why) /\
  polls (snd (read d w)) = polls (snd (read d w')) /\
  ticks (snd (read d w)) = ticks (snd (read d w')).
Proof.
  intros Hsl. pose proof Hsl as (Hp & Ht & _). unfold read.
  destruct (read_frame_same (_pin d) w w' Hsl)
    as [(k & _ & E & E') | (why & k & t & E & E')]; rewrite E, E'.
  - split; [intros why; split; discriminate|].
    do 2 destruct (_ =? _)%Z; simpl; split; lia.
  - split; [reflexivity|]. simpl; split; lia.
Qed.

Lemma timeouts_ignore_clock_witness :
  polls (snd (read (mkMyDHT11 2 25 60) (slow_world [])))
    = polls (snd (read (mkMyDHT11 2 25 60) (stuck_world LOW))) /\
  (fst (read_frame 2 (slow_world [])) = ReturnFalse AckLowTimeout <->
   fst (read_frame 2 (stuck_world LOW)) = ReturnFalse AckLowTimeout).
Proof.
  destruct (timeouts_ignore_clock (mkMyDHT11 2 25 60) (slow_world [])
              (stuck_world LOW)) as (H1 & H2 & _).
  - repeat split. intros k. simpl. now destruct k.
  - split; [exact H2 | apply H1].
Defined.

(** A byte of the buffer is made of its own eight bits of the stream. *)
Lemma frame_byte_eq (l l' : list bool) (j : nat) :
  length l = 40 -> length l' = 40 -> j < 5 ->
  (forall n, n < 8 ->
     nth (8 * j + (7 - n)) l false = nth (8 * j + (7 - n)) l' false) ->
  bits (pack l empty_frame) !!! j = bits (pack l' empty_frame) !!! j.
Proof.
  intros Hl Hl' Hj H.
  destruct (packed_40 l Hl) as [_ _ _ Hu8 Hbit].
  destruct (packed_40 l' Hl') as [_ _ _ Hu8' Hbit'].
  apply u8_ext; [now apply Hu8 | now apply Hu8' |].
  intros n Hn. now rewrite Hbit, Hbit', H.
Qed.

(** X6. The outcome of [read], the returned flag and the stored readings,
    is decided by the levels of its own pin and, for the 24 bits of bytes
    0, 2 and 4, by whether the high time is above 50.  The bits of bytes
    1 and 3, the fractional parts, have no influence: they are neither
    stored nor part of the checksum that is compared. *)
Theorem read_ignores_fraction_bytes (d : MyDHT11) (w w' : World) :
  same_line (_pin d) w w' ->
  (forall i, i < 8 \/ 16 <= i < 24 \/ 32 <= i < 40 ->
     (high_time w i >? 50)%Z = (high_time w' i >? 50)%Z) ->
  fst (read d w) = fst (read d w').
Proof.
  intros Hsl Hh.
  assert (forall j, j = 0 \/ j = 2 \/ j = 4 ->
            bits (pack (samples w) empty_frame) !!! j
            = bits (pack (samples w') empty_frame) !!! j) as Hb.
  { intros j Hj.
    apply frame_byte_eq; [apply length_samples | apply length_samples | lia |].
    intros n Hn. rewrite !nth_samples by lia. apply Hh. lia. }
  unfold read.
  destruct (read_frame_same (_pin d) w w' Hsl)
    as [(k & _ & E & E') | (why & k & t & E & E')]; rewrite E, E';
    [|reflexivity].
  unfold checksum.
  rewrite (Hb 0), (Hb 2), (Hb 4) by lia.
  now destruct (_ =? _)%Z.
Qed.

Lemma read_ignores_fraction_bytes_witness :
  fst (read (mkMyDHT11 2 0 0) (sensor_world 26 70 1000 [60; 0; 25; 0; 85]%Z))
  = fst (read (mkMyDHT11 2 0 0) (sensor_world 40 90 77 [60; 7; 25; 9; 85]%Z)).
Proof.
  apply read_ignores_fraction_bytes.
  - repeat split.
  - intros i Hi.
    do 40 (destruct i as [|i]; [first [vm_compute; reflexivity | lia]|]). lia.
Defined.

(** X7. Moving the clock forward by any number of microseconds, so also
    across the wrap of the 32-bit counter, changes nothing in the outcome
    of [read]. *)
Theorem read_clock_shift (d : MyDHT11) (w : World) (c : Z) :
  fst (read d (shift_clock c w)) = fst (read d w).
Proof.
  apply read_same.
  - repeat split.
  - apply samples_shift_clock.
Qed.

(** ** When [waitForState] returns *)

Section WaitForStateLoop.
Variables (pin state timeout startTime : Z).

Lemma loop_exit_next w j :
  loop_exit pin state timeout startTime (ticked 1 (polled 1 w)) j <->
  loop_exit pin state timeout startTime w (S j).
Proof.
  unfold loop_exit. simpl.
  replace (S (polls w + j)) with (polls w + S j) by lia.
  replace (S (ticks w + j)) with (ticks w + S j) by lia.
  reflexivity.
Qed.

(** The loop never takes the [return false] of [read]. *)
Lemma waitForState_loop_done fuel : forall w,
  exists r, fst (waitForState_loop fuel pin state timeout startTime w) = Done r.
Proof.
  induction fuel as [|fuel IH]; intros w.
  - now exists None.
  - rewrite waitForState_loop_step.
    destruct (negb _); [|now exists (Some true)].
    destruct (_ >? _)%Z; [now exists (Some false) | apply IH].
Qed.

Lemma waitForState_loop_returns j : forall fuel w,
  j < fuel -> loop_exit pin state timeout startTime w j ->
  exists r,
    fst (waitForState_loop fuel pin state timeout startTime w) = Done (Some r).
Proof.
  induction j as [|j IH]; intros [|fuel] w Hf Hx; try lia;
    rewrite waitForState_loop_step.
  - destruct Hx as [Hx|Hx]; rewrite Nat.add_0_r in Hx.
    + apply Z.eqb_eq in Hx. rewrite Hx. now exists true.
    + destruct (negb _); [|now exists true].
      rewrite (gtb_true _ _ Hx). now exists false.
  - destruct (negb _); [|now exists true].
    destruct (_ >? _)%Z; [now exists false|].
    apply IH; [lia | now apply loop_exit_next].
Qed.

Lemma waitForState_loop_returned fuel : forall w r,
  fst (waitForState_loop fuel pin state timeout startTime w) = Done (Some r) ->
  exists j, j < fuel /\ loop_exit pin state timeout startTime w j.
Proof.
  induction fuel as [|fuel IH]; intros w r; [discriminate|].
  rewrite waitForState_loop_step.
  destruct (level_value (signal w pin (polls w)) =? state)%Z eqn:E; simpl.
  - intros _. exists 0. split; [lia|]. left.
    rewrite Nat.add_0_r. now apply Z.eqb_eq.
  - destruct (_ >? _)%Z eqn:G.
    + intros _. exists 0. split; [lia|]. right.
      rewrite Nat.add_0_r. rewrite Z.gtb_ltb in G. apply Z.ltb_lt in G. lia.
    + intros H. apply IH in H as (j & Hj & Hx).
      exists (S j). split; [lia | now apply loop_exit_next].
Qed.

Lemma waitForState_loop_more fuel : forall fuel' w r,
  fuel <= fuel' ->
  fst (waitForState_loop fuel pin state timeout startTime w) = Done (Some r) ->
  waitForState_loop fuel' pin state timeout startTime w
    = waitForState_loop fuel pin state timeout startTime w.
Proof.
  induction fuel as [|fuel IH]; intros fuel' w r Hf; [discriminate|].
  destruct fuel' as [|fuel']; [lia|].
  rewrite !waitForState_loop_step.
  destruct (negb _); [|reflexivity].
  destruct (_ >? _)%Z; [reflexivity|].
  apply IH. lia.
Qed.

(** The loop polls at most [fuel] times, reads the clock once after every
    poll but a last one that showed [state], and does nothing else. *)
Lemma waitForState_loop_world fuel : forall w,
  exists k t, k <= fuel /\
    snd (waitForState_loop fuel pin state timeout startTime w)
      = ticked t (polled k w) /\
    match fst (waitForState_loop fuel pin state timeout startTime w) with
    | Done (Some true) => k = S t
    | _ => t = k
    end.
Proof.
  induction fuel as [|fuel IH]; intros w.
  - exists 0, 0. split; [lia|]. split; [now destruct w | reflexivity].
  - rewrite waitForState_loop_step.
    destruct (negb _); [|exists 1, 0; split; [lia | split; reflexivity]].
    destruct (_ >? _)%Z; [exists 1, 1; split; [lia | split; reflexivity]|].
    destruct (IH (ticked 1 (polled 1 w))) as (k & t & Hk & -> & Hr).
    exists (k + 1), (t + 1). split; [lia|]. split.
    + now rewrite polled_ticked, polled_polled, ticked_ticked.
    + destruct (fst _) as [[[|]|]|]; lia.
Qed.

End WaitForStateLoop.

Lemma waitForState_eq fuel d state timeout w :
  waitForState fuel d state timeout w
    = (match fst (waitForState_loop fuel (_pin d) state timeout
                    (wrap_ulong (clock w (ticks w))) (ticked 1 w)) with
       | Done r => r
       | ReturnFalse _ => None
       end, d,
       snd (waitForState_loop fuel (_pin d) state timeout
              (wrap_ulong (clock w (ticks w))) (ticked 1 w))).
Proof.
  unfold waitForState. rewrite (bind_done _ _ _ _ _ (micros_eq w)).
  now destruct (waitForState_loop _ _ _ _ _ _) as [[r|why] w'].
Qed.

Lemma loop_exit_elapsed d state timeout w j :
  loop_exit (_pin d) state timeout (wrap_ulong (clock w (ticks w)))
    (ticked 1 w) j <->
  level_value (signal w (_pin d) (polls w + j)) = state \/
  (elapsed w j > timeout)%Z.
Proof. reflexivity. Qed.

Lemma waitForState_some fuel d state timeout w r :
  fst (fst (waitForState fuel d state timeout w)) = Some r <->
  fst (waitForState_loop fuel (_pin d) state timeout
         (wrap_ulong (clock w (ticks w))) (ticked 1 w)) = Done (Some r).
Proof.
  rewrite waitForState_eq. simpl.
  destruct (waitForState_loop_done (_pin d) state timeout
              (wrap_ulong (clock w (ticks w))) fuel (ticked 1 w)) as [r' E].
  rewrite E. split; congruence.
Qed.

(** X8. [waitForState] returns exactly when some poll shows the level or
    some check finds the timeout exceeded; otherwise the loop of the
    source never ends.  Once the fuel suffices for a result, more fuel
    changes nothing. *)
Theorem waitForState_returns_iff (d : MyDHT11) (state timeout : Z) (w : World) :
  ((exists fuel r, fst (fst (waitForState fuel d state timeout w)) = Some r) <->
   (exists j, level_value (signal w (_pin d) (polls w + j)) = state \/
              (elapsed w j > timeout)%Z)) /\
  (forall fuel fuel' r,
     fuel <= fuel' ->
     fst (fst (waitForState fuel d state timeout w)) = Some r ->
     waitForState fuel' d state timeout w = waitForState fuel d state timeout w).
Proof.
  split; [split|].
  - intros (fuel & r & H). apply waitForState_some in H.
    apply waitForState_loop_returned in H as (j & _ & Hx).
    exists j. now apply loop_exit_elapsed.
  - intros (j & Hx). apply loop_exit_elapsed in Hx.
    destruct (waitForState_loop_returns _ _ _ _ j (S j) _ ltac:(lia) Hx) as [r E].
    exists (S j), r. now apply waitForState_some.
  - intros fuel fuel' r Hf H. apply waitForState_some in H.
    rewrite !waitForState_eq.
    now rewrite (waitForState_loop_more _ _ _ _ fuel fuel' _ r Hf H).
Qed.

Lemma waitForState_returns_iff_witness :
  (exists fuel r,
     fst (fst (waitForState fuel (mkMyDHT11 2 25 60) 1 25
                 (slow_world [LOW; LOW; HIGH]))) = Some r) /\
  waitForState 9 (mkMyDHT11 2 25 60) 1 25 (slow_world [LOW; LOW; HIGH])
    = waitForState 3 (mkMyDHT11 2 25 60) 1 25 (slow_world [LOW; LOW; HIGH]).
Proof.
  split.
  - apply (proj1 (waitForState_returns_iff (mkMyDHT11 2 25 60) 1 25
                    (slow_world [LOW; LOW; HIGH]))).
    exists 2. left. reflexivity.
  - apply (proj2 (waitForState_returns_iff (mkMyDHT11 2 25 60) 1 25
                    (slow_world [LOW; LOW; HIGH])) 3 9 true).
    + lia.
    + vm_compute. reflexivity.
Defined.

(** X9. With the largest timeout an [unsigned long] holds, 4294967295, or
    more, no check can find the timeout exceeded: on a line that never
    shows the level asked for, [waitForState] does not return, whatever
    the clock does.  A level other than 0 and 1 is never shown. *)
Theorem waitForState_can_hang (d : MyDHT11) (state timeout : Z) (w : World) :
  (2 ^ 32 - 1 <= timeout)%Z ->
  ((forall j, level_value (signal w (_pin d) (polls w + j)) <> state) ->
   forall fuel, fst (fst (waitForState fuel d state timeout w)) = None) /\
  (state <> 0%Z -> state <> 1%Z ->
   forall fuel, fst (fst (waitForState fuel d state timeout w)) = None).
Proof.
  intros Ht.
  assert ((forall j, level_value (signal w (_pin d) (polls w + j)) <> state) ->
          forall fuel, fst (fst (waitForState fuel d state timeout w)) = None)
    as Hhang.
  { intros Hne fuel.
    destruct (fst (fst (waitForState fuel d state timeout w))) as [r|] eqn:E;
      [|reflexivity].
    exfalso. apply waitForState_some in E.
    apply waitForState_loop_returned in E as (j & _ & Hx).
    apply loop_exit_elapsed in Hx as [Hx|Hx]; [now apply (Hne j)|].
    unfold elapsed, wrap_ulong, ULONG_BITS in Hx.
    pose proof (Z.mod_pos_bound
                  (clock w (S (ticks w + j)) mod 2 ^ 32
                   - clock w (ticks w) mod 2 ^ 32) (2 ^ 32) ltac:(lia)).
    lia. }
  split; [exact Hhang|].
  intros H0 H1. apply Hhang. intros j.
  destruct (signal w (_pin d) (polls w + j)); simpl; congruence.
Qed.

Lemma waitForState_can_hang_witness :
  fst (fst (waitForState 1000 (mkMyDHT11 2 25 60) 1 4294967295
              (slow_world []))) = None /\
  fst (fst (waitForState 1000 (mkMyDHT11 2 25 60) 2 4294967295
              (slow_world [LOW; HIGH]))) = None.
Proof.
  split.
  - apply (proj1 (waitForState_can_hang (mkMyDHT11 2 25 60) 1 4294967295
                    (slow_world []) ltac:(lia))).
    intros j. simpl. destruct j; simpl; lia.
  - apply (proj2 (waitForState_can_hang (mkMyDHT11 2 25 60) 2 4294967295
                    (slow_world [LOW; HIGH]) ltac:(lia))); lia.
Defined.

(** X10. [waitForState] only looks: it writes nothing and leaves every pin
    mode alone.  It polls at most as often as the loop is allowed to turn,
    and reads the clock once when called and once after every poll,
    except after a last poll that showed the level. *)
Theorem waitForState_only_looks
  (fuel : nat) (d : MyDHT11) (state timeout : Z) (w : World) :
  trace (snd (waitForState fuel d state timeout w)) = trace w /\
  modes (snd (waitForState fuel d state timeout w)) = modes w /\
  exists k t,
    polls (snd (waitForState fuel d state timeout w)) = k + polls w /\
    ticks (snd (waitForState fuel d state timeout w)) = t + ticks w /\
    k <= fuel /\
    match fst (fst (waitForState fuel d state timeout w)) with
    | Some true => t = k
    | _ => t = S k
    end.
Proof.
  rewrite waitForState_eq. simpl.
  destruct (waitForState_loop_world (_pin d) state timeout
              (wrap_ulong (clock w (ticks w))) fuel (ticked 1 w))
    as (k & t & Hk & -> & Hr).
  split; [reflexivity|]. split; [reflexivity|].
  exists k, (S t). simpl. split; [reflexivity|].
  split; [lia|]. split; [exact Hk|].
  destruct (fst _) as [[[|]|]|]; lia.
Qed.

(** ** The pin of a driver *)

Lemma read_pin d w : _pin (snd (fst (read d w))) = _pin d.
Proof.
  destruct (read_cases d w) as [(why & _ & E) | (bs & _ & E)]; now rewrite E.
Qed.

Lemma calls_pin cs : forall d w, _pin (snd (fst (calls cs d w))) = _pin d.
Proof.
  induction cs as [|c cs IH]; intros d w; simpl; [reflexivity|].
  assert (_pin (snd (fst (call c d w))) = _pin d) as Hc.
  { destruct c; simpl; try reflexivity.
    pose proof (read_pin d w) as H.
    now destruct (read d w) as [[b d'] w']. }
  destruct (call c d w) as [[r d1] w1]. simpl in Hc.
  specialize (IH d1 w1).
  destruct (calls cs d1 w1) as [[rs d2] w2]. simpl in *. congruence.
Qed.

(** X11. The pin of a driver is the one it was constructed with, after
    any calls of [read] and the getters, in any world, and after
    [waitForState]. *)
Theorem pin_is_fixed (pin : Z) (w : World) (cs : list Call) :
  _pin (snd (fst (calls cs (fst (new_MyDHT11 pin w))
                       (snd (new_MyDHT11 pin w))))) = pin /\
  forall d fuel state timeout w',
    _pin (snd (fst (waitForState fuel d state timeout w'))) = _pin d.
Proof.
  split.
  - now rewrite calls_pin.
  - intros d fuel state timeout w'. now rewrite waitForState_driver.
Qed.

(** ** Reading what a sensor sends *)

Lemma frame_levels_5 (bytes : list Z) :
  length bytes = 5 -> frame_levels bytes = frame_levels [0; 0; 0; 0; 0]%Z.
Proof.
  intros Hl. do 6 (destruct bytes as [|? bytes]; try discriminate).
  unfold frame_levels, frame_bits, byte_bits. cbn [map concat app]. reflexivity.
Qed.

Lemma length_frame_bits_5 (bytes : list Z) :
  length bytes = 5 -> length (frame_bits bytes) = 40.
Proof.
  intros Hl. do 6 (destruct bytes as [|? bytes]; try discriminate).
  unfold frame_bits, byte_bits. cbn [map concat app length]. reflexivity.
Qed.

(** The two clock readings of bit [i] of a sensor are the high time of
    that bit apart. *)
Lemma frame_times_nth (zero one : Z) (l : list bool) : forall t0 i,
  i < length l ->
  exists t,
    nth (2 * i) (frame_times zero one t0 l) 0%Z = t /\
    nth (2 * i + 1) (frame_times zero one t0 l) 0%Z
      = (t + (if nth i l false then one else zero))%Z.
Proof.
  induction l as [|b l IH]; intros t0 i Hi; simpl in Hi; [lia|].
  destruct i as [|i].
  - exists t0. split; reflexivity.
  - replace (2 * S i) with (S (S (2 * i))) by lia.
    cbn [frame_times nth Nat.add]. apply IH. lia.
Qed.

Lemma sensor_high_time zero one t0 bytes i :
  (0 <= zero < 2 ^ 32)%Z -> (0 <= one < 2 ^ 32)%Z ->
  i < length (frame_bits bytes) ->
  high_time (sensor_world zero one t0 bytes) i
    = if nth i (frame_bits bytes) false then one else zero.
Proof.
  intros Hz Ho Hi. unfold high_time. rewrite wrap_sub.
  unfold sensor_world; cbn [clock ticks Nat.add].
  destruct (frame_times_nth zero one (frame_bits bytes) t0 i Hi) as (t & -> & ->).
  unfold wrap_ulong, ULONG_BITS.
  replace (t + (if nth i (frame_bits bytes) false then one else zero) - t)%Z
    with (if nth i (frame_bits bytes) false then one else zero) by lia.
  apply Z.mod_small. destruct (nth i (frame_bits bytes) false); lia.
Qed.

Lemma sensor_sends zero one t0 bytes :
  length bytes = 5 -> (0 <= zero <= 50)%Z -> (50 < one < 2 ^ 32)%Z ->
  sends (sensor_world zero one t0 bytes) bytes.
Proof.
  intros Hl Hz Ho. pose proof (length_frame_bits_5 bytes Hl) as Hfb.
  unfold sends. apply (nth_ext _ _ false false).
  - now rewrite length_samples.
  - rewrite length_samples. intros i Hi.
    rewrite nth_samples, sensor_high_time by lia.
    destruct (nth i (frame_bits bytes) false).
    + apply gtb_true. lia.
    + apply gtb_false. lia.
Qed.

Lemma sensor_frame_complete zero one t0 bytes pin :
  length bytes = 5 ->
  exists w',
    read_frame pin (sensor_world zero one t0 bytes)
      = (Done (bits (pack (samples (sensor_world zero one t0 bytes))
                       empty_frame)), w').
Proof.
  intros Hl.
  assert (same_line pin (sensor_world zero one t0 bytes)
            (sensor_world 0 0 0 [0; 0; 0; 0; 0]%Z)) as Hsl.
  { repeat split. intros k. unfold sensor_world; cbn [signal].
    now rewrite (frame_levels_5 bytes Hl). }
  destruct (read_frame_same pin _ _ Hsl)
    as [(k & _ & E & _) | (why & k & t & _ & E')].
  - eexists. exact E.
  - exfalso.
    assert (fst (read_frame pin (sensor_world 0 0 0 [0; 0; 0; 0; 0]%Z))
            = Done [0; 0; 0; 0; 0]%Z) as F by (vm_compute; reflexivity).
    rewrite E' in F. discriminate.
Qed.

(** X12. A sensor that answers the start signal and then sends five bytes,
    with a high time of at most 50 microseconds for a 0 and of more than
    50 for a 1, is read completely and exactly: the buffer holds the five
    bytes sent, whatever the bytes and whenever on the clock the frame
    starts, and [read] stores bytes 0 and 2 and returns whether byte 4 is
    their sum modulo 256. *)
Theorem sensor_roundtrip (zero one t0 : Z) (bytes : list Z) (d : MyDHT11) :
  length bytes = 5 ->
  (forall j, j < 5 -> (0 <= bytes !!! j < 256)%Z) ->
  (0 <= zero <= 50)%Z -> (50 < one < 2 ^ 32)%Z ->
  fst (read_frame (_pin d) (sensor_world zero one t0 bytes)) = Done bytes /\
  fst (read d (sensor_world zero one t0 bytes))
    = ((bytes !!! 4%nat =? (bytes !!! 0%nat + bytes !!! 2%nat) mod 256)%Z,
       mkMyDHT11 (_pin d) (bytes !!! 2%nat) (bytes !!! 0%nat)).
Proof.
  intros Hl Hu8 Hz Ho.
  assert (fst (read_frame (_pin d) (sensor_world zero one t0 bytes)) = Done bytes)
    as H.
  { destruct (sensor_frame_complete zero one t0 bytes (_pin d) Hl) as [w' E].
    rewrite E. cbn [fst]. f_equal.
    rewrite (sensor_sends zero one t0 bytes Hl Hz Ho).
    now apply pack_frame_bits. }
  split; [exact H|].
  rewrite (read_complete d _ bytes H). unfold checksum. now rewrite land_255.
Qed.

Lemma sensor_roundtrip_witness :
  fst (read (mkMyDHT11 2 0 0) (sensor_world 28 70 4294967000 [200; 13; 100; 7; 44]%Z))
  = (true, mkMyDHT11 2 100 200).
Proof.
  apply (proj2 (sensor_roundtrip 28 70 4294967000 [200; 13; 100; 7; 44]%Z
                  (mkMyDHT11 2 0 0) eq_refl
                  ltac:(apply u8_bytes_5; lia) ltac:(lia) ltac:(lia))).
Defined.

(** ** What a bit that times out costs *)

(** X13. A bit whose LOW wait runs out has cost 10001 polls and no clock
    reading; a bit whose HIGH wait runs out has cost exactly 10002 polls
    and one clock reading, however the polls divide into LOW and HIGH
    ones; a bit that is sampled has cost at most 10002 polls and two
    clock readings. *)
Theorem bit_cost (i : nat) (pin : Z) (w : World) :
  match fst (sample_bit i pin w) with
  | Done _ =>
      2 + polls w <= polls (snd (sample_bit i pin w)) <= BIT_BUDGET + 2 + polls w /\
      ticks (snd (sample_bit i pin w)) = 2 + ticks w
  | ReturnFalse (BitHighTimeout _) =>
      polls (snd (sample_bit i pin w)) = BIT_BUDGET + 2 + polls w /\
      ticks (snd (sample_bit i pin w)) = 1 + ticks w
  | ReturnFalse _ =>
      polls (snd (sample_bit i pin w)) = BIT_BUDGET + 1 + polls w /\
      ticks (snd (sample_bit i pin w)) = ticks w
  end /\
  Z.of_nat BIT_BUDGET = 10000%Z.
Proof.
  split; [|apply budgets].
  destruct (sample_bit_cases i pin w)
    as [(a & c & H1 & _ & _ & _ & E) | [(_ & E) | (a & _ & _ & _ & E)]];
    rewrite E; simpl; split; lia.
Qed.

(** ** The lines on which a read is complete *)

Lemma pulse_at_signal w w' pin p a c :
  signal w' = signal w -> pulse_at w' pin p a c <-> pulse_at w pin p a c.
Proof. intros H. unfold pulse_at, run. now rewrite H. Qed.

Lemma follows_signal w w' pin l : forall p,
  signal w' = signal w -> follows w' pin p l <-> follows w pin p l.
Proof.
  induction l as [|[a c] l IH]; intros p H; simpl; [reflexivity|].
  now rewrite (pulse_at_signal w w' pin p a c H), (IH _ H).
Qed.

(** The two loops that wait for a pulse to pass, with budgets [n1] and
    [n2] and [t] clock readings in between, on a pulse that fits. *)
Lemma waits_pulse why1 why2 pin n1 n2 w a c t :
  pulse_at w pin (polls w) a c -> a <= n1 -> c <= n2 ->
  wait_while why1 pin LOW n1 w = (Done (n1 - a), polled (S a) w) /\
  wait_while why2 pin HIGH n2 (ticked t (polled (S a) w))
    = (Done (n2 - c), ticked t (polled (a + c + 2) w)).
Proof.
  intros (Hlow & Hhigh & Hend) Ha Hc. split.
  - apply wait_while_done; [exact Ha | exact Hlow |].
    apply not_LOW. specialize (Hhigh 0 ltac:(lia)).
    now rewrite Nat.add_0_r in Hhigh.
  - rewrite (wait_while_done why2 pin HIGH n2 _ c Hc).
    + rewrite polled_ticked, polled_polled. apply pair_eq; [reflexivity|].
      apply step_eq; lia.
    + intros k Hk. simpl.
      replace (S (a + polls w + k)) with (polls w + a + S k) by lia.
      apply Hhigh. lia.
    + apply not_HIGH. simpl.
      now replace (S (a + polls w + c)) with (polls w + a + S c) by lia.
Qed.

(** What the first of two such loops has seen when it is left. *)
Lemma low_waited why pin n w r w1 :
  wait_while why pin LOW n w = (Done r, w1) ->
  exists a, a <= n /\ r = n - a /\ w1 = polled (S a) w /\
    run w pin LOW (polls w) a /\ signal w pin (polls w + a) = HIGH.
Proof.
  intros E1.
  destruct (wait_while_cases why pin LOW n w)
    as [(a & Ha & Hlow & Hup & E) | (_ & E)]; rewrite E in E1; [|discriminate].
  injection E1 as <- <-. apply not_LOW in Hup.
  exists a. repeat split; auto.
Qed.

(** The pulse that the two loops have seen pass. *)
Lemma pulse_waited why pin n w a t r w2 :
  run w pin LOW (polls w) a -> signal w pin (polls w + a) = HIGH ->
  wait_while why pin HIGH n (ticked t (polled (S a) w)) = (Done r, w2) ->
  exists c, c <= n /\ pulse_at w pin (polls w) a c /\
    r = n - c /\ w2 = ticked t (polled (a + c + 2) w).
Proof.
  intros Hlow Hup E2.
  destruct (wait_while_cases why pin HIGH n (ticked t (polled (S a) w)))
    as [(c & Hc & Hhigh & Hend & E') | (_ & E')]; rewrite E' in E2;
    [|discriminate].
  injection E2 as <- <-.
  exists c. apply not_HIGH in Hend. simpl in Hhigh, Hend.
  split; [exact Hc|]. split; [|split; [reflexivity|]].
  - split; [exact Hlow|]. split.
    + apply run_shift; [exact Hup|]. intros k Hk.
      replace (S (polls w + a) + k) with (S (a + polls w) + k) by lia.
      now apply Hhigh.
    + now replace (polls w + a + S c) with (S (a + polls w + c)) by lia.
  - rewrite polled_ticked, polled_polled. apply step_eq; lia.
Qed.

Lemma sample_bit_pulse i pin w a c :
  pulse_at w pin (polls w) a c -> a + c <= BIT_BUDGET ->
  sample_bit i pin w
    = (Done (bit_at w (ticks w)), ticked 2 (polled (a + c + 2) w)).
Proof.
  intros Hp Hac.
  destruct (waits_pulse (BitLowTimeout i) (BitHighTimeout i) pin
              BIT_BUDGET (BIT_BUDGET - a) w a c 1 Hp ltac:(lia) ltac:(lia))
    as [E1 E2].
  unfold sample_bit.
  rewrite (bind_done _ _ _ _ _ E1), (bind_done _ _ _ _ _ (micros_eq _)).
  rewrite (bind_done _ _ _ _ _ E2), (bind_done _ _ _ _ _ (micros_eq _)).
  reflexivity.
Qed.

Lemma read_bits_follows pin l : forall i f w,
  Forall fits_bit l -> follows w pin (polls w) l ->
  exists f' w', read_bits pin (length l) i f w = (Done f', w').
Proof.
  induction l as [|[a c] l IH]; intros i f w Hfit Hfol.
  - now exists f, w.
  - inversion Hfit as [|? ? Hac Hfit']; subst. destruct Hfol as [Hp Hfol].
    cbn [length read_bits].
    rewrite (bind_done _ _ _ _ _ (sample_bit_pulse i pin w a c Hp Hac)).
    apply IH; [exact Hfit'|].
    apply (follows_signal w); [reflexivity|]. simpl.
    now replace (a + c + 2 + polls w) with (polls w + a + c + 2) by lia.
Qed.

Lemma read_bits_followed pin n : forall i f w f' w',
  read_bits pin n i f w = (Done f', w') ->
  exists l, length l = n /\ Forall fits_bit l /\ follows w pin (polls w) l.
Proof.
  induction n as [|n IH]; intros i f w f' w' H.
  - exists []. repeat split. constructor.
  - cbn [read_bits] in H.
    destruct (sample_bit_cases i pin w)
      as [(a & c & Hac & H1 & H2 & H3 & E) | [(_ & E) | (a & _ & _ & _ & E)]].
    + rewrite (bind_done _ _ _ _ _ E) in H.
      apply IH in H as (l & Hl & Hfit & Hfol).
      exists ((a, c) :: l). split; [simpl; lia|]. split.
      * constructor; [exact Hac | exact Hfit].
      * split; [now split|].
        apply (follows_signal w) in Hfol; [|reflexivity]. simpl in Hfol.
        now replace (polls w + a + c + 2) with (a + c + 2 + polls w) by lia.
    + rewrite (bind_abort _ _ _ _ _ E) in H. discriminate.
    + rewrite (bind_abort _ _ _ _ _ E) in H. discriminate.
Qed.

(** X14. [read] gets the whole frame exactly on the lines that show 41
    pulses one after the other, each [a] polls LOW, then [c + 1] polls
    HIGH, then a poll LOW at which the next pulse begins: first the
    acknowledgment, with [a <= 10000] and [c <= 30000], then 40 bits,
    each with [a + c <= 10000]. *)
Theorem read_completes_iff (d : MyDHT11) (w : World) :
  (exists bs, fst (read_frame (_pin d) w) = Done bs) <->
  (exists a c l,
     a <= ACK_LOW_BUDGET /\ c <= ACK_HIGH_BUDGET /\
     length l = 40 /\ Forall fits_bit l /\
     follows w (_pin d) (polls w) ((a, c) :: l)).
Proof.
  unfold read_frame.
  rewrite (bind_done _ _ _ _ _ (start_signal_eq (_pin d) w)).
  split.
  - intros [bs H]. unfold bind in H at 1.
    destruct (wait_while AckLowTimeout _ _ _ _) as [[r1|?] w1] eqn:E1;
      [|discriminate].
    unfold bind in H at 1.
    destruct (wait_while AckHighTimeout _ _ _ _) as [[r2|?] w2] eqn:E2;
      [|discriminate].
    apply low_waited in E1 as (a & Ha & _ & -> & Hlow & Hup).
    change (polled (S a) (started (_pin d) w))
      with (ticked 0 (polled (S a) (started (_pin d) w))) in E2.
    apply (pulse_waited _ _ _ (started (_pin d) w)) in E2
      as (c & Hc & Hp & _ & ->); [|exact Hlow|exact Hup].
    unfold bind in H.
    destruct (read_bits _ _ _ _ _) as [[f|?] w3] eqn:E3; [|discriminate].
    apply read_bits_followed in E3 as (l & Hl & Hfit & Hfol).
    exists a, c, l.
    split; [exact Ha|]. split; [exact Hc|]. split; [exact Hl|].
    split; [exact Hfit|]. split; [exact Hp|].
    apply (follows_signal w) in Hfol; [|reflexivity]. simpl in Hfol.
    now replace (polls w + a + c + 2) with (a + c + 2 + polls w) by lia.
  - intros (a & c & l & Ha & Hc & Hl & Hfit & Hp & Hfol).
    destruct (waits_pulse AckLowTimeout AckHighTimeout (_pin d)
                ACK_LOW_BUDGET ACK_HIGH_BUDGET (started (_pin d) w) a c 0
                Hp Ha Hc) as [E1 E2].
    rewrite (bind_done _ _ _ _ _ E1), (bind_done _ _ _ _ _ E2).
    destruct (read_bits_follows (_pin d) l 0 empty_frame
                (ticked 0 (polled (a + c + 2) (started (_pin d) w))) Hfit)
      as (f & w' & E3).
    + apply (follows_signal w); [reflexivity|]. simpl.
      now replace (a + c + 2 + polls w) with (polls w + a + c + 2) by lia.
    + rewrite Hl in E3. rewrite (bind_done _ _ _ _ _ E3).
      now exists (bits f).
Qed.

Lemma read_completes_iff_witness :
  exists bs,
    fst (read_frame 2 (sensor_world 26 70 1000 [60; 0; 25; 0; 85]%Z)) = Done bs.
Proof.
  apply (proj2 (read_completes_iff (mkMyDHT11 2 0 0)
                  (sensor_world 26 70 1000 [60; 0; 25; 0; 85]%Z))).
  destruct budgets as (B1 & B2 & B3).
  exists 1, 1, (repeat (1, 1) 40).
  split; [lia|]. split; [lia|].
  split; [reflexivity|]. split.
  - assert (fits_bit (1, 1)) as H by (unfold fits_bit; simpl; lia).
    unfold repeat. repeat (constructor; [exact H|]). constructor.
  - unfold follows, repeat.
    repeat (split;
            [unfold pulse_at, run; split; [|split];
             [intros k Hk; destruct k as [|k]; [reflexivity | lia]
             |intros k Hk; do 2 (destruct k as [|k]; [reflexivity|]); lia
             |reflexivity]|]).
    exact I.
Defined.
